(** * Per-day CSV time-tracking store: a shallow embedding

    Model of [src/services/databaseService.ts] (the per-day CSV
    [DatabaseService]), of [TimeTrackerModel] in [src/models/timeTracker.ts]
    and of [IdleDetector] in [src/utils/idleDetection.ts].

    JavaScript strings are Rocq [string]s (one [ascii] per code unit),
    [Date] objects are a time value in milliseconds or the invalid date,
    numbers are integers or [NaN].  Node's [fs] module is a world of files
    with a fault oracle deciding which calls throw, and the [vscode] window
    messages are an output log. *)

From Stdlib Require Import ZArith String Ascii List Bool Lia.
Import ListNotations.

Open Scope string_scope.
Open Scope Z_scope.

(* ------------------------------------------------------------------ *)
(** ** Characters and string helpers *)

Definition dq : ascii := "034".
Definition comma : ascii := ",".
Definition nl : ascii := "010".
Definition cr : ascii := "013".

Definition str1 (c : ascii) : string := String c EmptyString.

(** [s.includes(c)] for a one-character needle. *)
Fixpoint includes (c : ascii) (s : string) : bool :=
  match s with
  | EmptyString => false
  | String c' s' => Ascii.eqb c c' || includes c s'
  end.

(** [s.replace(/Q/g, QQ)], where Q is the double-quote character. *)
Fixpoint double_quotes (s : string) : string :=
  match s with
  | EmptyString => EmptyString
  | String c s' =>
      if Ascii.eqb c dq then String dq (String dq (double_quotes s'))
      else String c (double_quotes s')
  end.

(** [s.replace(/QQ/g, Q)], where Q is the double-quote character:
    non-overlapping matches, left to right. *)
Fixpoint undouble_quotes (s : string) : string :=
  match s with
  | String c ((String c' s') as rest) =>
      if Ascii.eqb c dq && Ascii.eqb c' dq then String dq (undouble_quotes s')
      else String c (undouble_quotes rest)
  | _ => s
  end.

(** [s.startsWith(c)] and [s.endsWith(c)] for a one-character needle. *)
Definition starts_with (c : ascii) (s : string) : bool :=
  match s with
  | String c' _ => Ascii.eqb c c'
  | EmptyString => false
  end.

Fixpoint last_char (s : string) : option ascii :=
  match s with
  | EmptyString => None
  | String c EmptyString => Some c
  | String _ s' => last_char s'
  end.

Definition ends_with (c : ascii) (s : string) : bool :=
  match last_char s with
  | Some c' => Ascii.eqb c c'
  | None => false
  end.

(** [s.substring(a, b)]: both indices clamped to [0, length], swapped when
    [a > b]. *)
Definition js_substring (s : string) (a b : nat) : string :=
  let n := String.length s in
  let a' := Nat.min a n in
  let b' := Nat.min b n in
  let lo := Nat.min a' b' in
  let hi := Nat.max a' b' in
  substring lo (hi - lo) s.

(** JavaScript white space among the 8-bit code units
    (tab, LF, VT, FF, CR, space, no-break space). *)
Definition is_js_space (c : ascii) : bool :=
  let n := nat_of_ascii c in
  (Nat.leb 9 n && Nat.leb n 13) || Nat.eqb n 32 || Nat.eqb n 160.

(** [line.trim()] is not the empty string. *)
Fixpoint not_blank (s : string) : bool :=
  match s with
  | EmptyString => false
  | String c s' => negb (is_js_space c) || not_blank s'
  end.

(* ------------------------------------------------------------------ *)
(** ** CSV field escaping and line parsing *)

(** [escapeCSV(value)]; [None] is [null] / [undefined]. *)
Definition escapeCSV (value : option string) : string :=
  match value with
  | None => EmptyString
  | Some stringValue =>
      if includes comma stringValue || includes dq stringValue
         || includes nl stringValue
      then str1 dq ++ double_quotes stringValue ++ str1 dq
      else stringValue
  end.

(** The loop of [parseCSVLine]: [inQuotes], [currentField] and [result]
    are the loop variables; a doubled quote inside quotes is read as one
    quote and the second one skipped ([i++]). *)
Fixpoint parse_loop (line : string) (inQuotes : bool) (currentField : string)
  (result : list string) : list string :=
  match line with
  | EmptyString => result ++ [currentField]
  | String ch rest =>
      if Ascii.eqb ch dq then
        match rest with
        | String ch' rest' =>
            if inQuotes && Ascii.eqb ch' dq
            then parse_loop rest' inQuotes (currentField ++ str1 dq) result
            else parse_loop rest (negb inQuotes) currentField result
        | EmptyString => parse_loop rest (negb inQuotes) currentField result
        end
      else if Ascii.eqb ch comma && negb inQuotes then
        parse_loop rest inQuotes EmptyString (result ++ [currentField])
      else parse_loop rest inQuotes (currentField ++ str1 ch) result
  end.

Definition parseCSVLine (line : string) : list string :=
  parse_loop line false EmptyString [].

(* ------------------------------------------------------------------ *)
(** ** Exceptions *)

(** What can be thrown: a [TypeError] (property read on [undefined]), a
    [RangeError] ([toISOString] of an invalid date) and a failing [fs]
    call. *)
Inductive Exn := TypeError | RangeError | FsError.

Inductive Res (A : Type) : Type :=
| Ok (a : A)
| Err (e : Exn).
Arguments Ok {A} a.
Arguments Err {A} e.

Definition rbind {A B} (r : Res A) (k : A -> Res B) : Res B :=
  match r with
  | Ok a => k a
  | Err e => Err e
  end.

Notation "x <-- r ;; k" := (rbind r (fun x => k))
  (at level 61, r at next level, right associativity).

(** [parseCSVValue(value)]; [None] is [undefined], on which
    [value.startsWith] throws a [TypeError]. *)
Definition parseCSVValue (v : option string) : Res string :=
  match v with
  | None => Err TypeError
  | Some value =>
      if String.eqb value EmptyString then Ok EmptyString
      else if starts_with dq value && ends_with dq value then
        Ok (undouble_quotes (js_substring value 1 (String.length value - 1)))
      else Ok value
  end.

(* ------------------------------------------------------------------ *)
(** ** Numbers *)

(** A JavaScript number as the program uses it: durations are differences
    of millisecond time values, hence integers, or [NaN] after a failed
    [Number(...)] conversion. *)
Inductive Num := NumZ (z : Z) | NaN.

Definition digit_char (n : Z) : ascii := ascii_of_nat (48 + Z.to_nat n).

Definition digit_value (c : ascii) : option Z :=
  let n := nat_of_ascii c in
  if Nat.leb 48 n && Nat.leb n 57 then Some (Z.of_nat n - 48) else None.

(** The [w] lowest decimal digits of [n], most significant first: the
    zero-padded rendering of [0 <= n < 10^w]. *)
Fixpoint digits_pad (w : nat) (n : Z) : string :=
  match w with
  | O => EmptyString
  | S w' => digits_pad w' (n / 10) ++ str1 (digit_char (n mod 10))
  end.

(** Decimal rendering of [n >= 0] without leading zeros; [fuel] bounds the
    number of digits. *)
Fixpoint dec_digits (fuel : nat) (n : Z) : string :=
  match fuel with
  | O => str1 (digit_char (n mod 10))
  | S f =>
      if n <? 10 then str1 (digit_char n)
      else dec_digits f (n / 10) ++ str1 (digit_char (n mod 10))
  end.

Definition dec_of_nonneg (n : Z) : string := dec_digits (Z.to_nat (Z.log2 n + 1)) n.

(** [String(x)] for a number [x] (as in [Array.prototype.join]). *)
Definition num_to_string (x : Num) : string :=
  match x with
  | NaN => "NaN"
  | NumZ z => if z <? 0 then "-" ++ dec_of_nonneg (- z) else dec_of_nonneg z
  end.

Fixpoint trim_left (s : string) : string :=
  match s with
  | String c s' => if is_js_space c then trim_left s' else s
  | EmptyString => EmptyString
  end.

Fixpoint rev_string (s : string) (acc : string) : string :=
  match s with
  | EmptyString => acc
  | String c s' => rev_string s' (String c acc)
  end.

(** [s.trim()] *)
Definition js_trim (s : string) : string :=
  rev_string (trim_left (rev_string (trim_left s) EmptyString)) EmptyString.

Fixpoint read_digits (s : string) (acc : Z) : option Z :=
  match s with
  | EmptyString => Some acc
  | String c s' =>
      match digit_value c with
      | Some d => read_digits s' (10 * acc + d)
      | None => None
      end
  end.

(** [Number(v)] for a string or [undefined] ([None]).  After trimming, the
    empty string is 0 and an optionally signed run of decimal digits is
    that integer; every other text is [NaN] here (the engine also reads
    fractions, exponents and hexadecimal literals, which the serializer
    never writes). *)
Definition js_Number (v : option string) : Num :=
  match v with
  | None => NaN
  | Some s =>
      match js_trim s with
      | EmptyString => NumZ 0
      | String c rest as t =>
          let signed (k : Z -> Z) (ds : string) :=
            match ds with
            | EmptyString => NaN
            | _ => match read_digits ds 0 with
                   | Some n => NumZ (k n)
                   | None => NaN
                   end
            end in
          if Ascii.eqb c "-" then signed Z.opp rest
          else if Ascii.eqb c "+" then signed id rest
          else signed id t
      end
  end.

(* ------------------------------------------------------------------ *)
(** ** Dates *)

(** A [Date] object: a time value in milliseconds since the epoch (UTC),
    or the invalid date (time value [NaN]). *)
Inductive Date := DateOf (t : Z) | InvalidDate.

Definition msPerDay : Z := 86400000.

(** [TimeClip]: time values beyond 8.64e15 ms make an invalid date. *)
Definition time_clip (t : Z) : Date :=
  if Z.abs t <=? 8640000000000000 then DateOf t else InvalidDate.

(** Year, month (1..12) and day (1..31) of a day number counted from
    1970-01-01 in the proleptic Gregorian calendar ([YearFromTime],
    [MonthFromTime], [DateFromTime] of ECMAScript), by the usual
    era / day-of-era decomposition. *)
Definition civil_of_doe (era doe : Z) : Z * Z * Z :=
  let yoe := (doe - doe / 1460 + doe / 36524 - doe / 146096) / 365 in
  let doy := doe - (365 * yoe + yoe / 4 - yoe / 100) in
  let mp := (5 * doy + 2) / 153 in
  let d := doy - (153 * mp + 2) / 5 + 1 in
  let m := if mp <? 10 then mp + 3 else mp - 9 in
  let y := yoe + era * 400 in
  (if m <=? 2 then y + 1 else y, m, d).

Definition civil_from_days (days : Z) : Z * Z * Z :=
  let z := days + 719468 in
  let era := z / 146097 in
  civil_of_doe era (z - era * 146097).

(** The inverse direction ([MakeDay] for a month and day in range). *)
Definition days_from_civil (y m d : Z) : Z :=
  let y' := if m <=? 2 then y - 1 else y in
  let era := y' / 400 in
  let yoe := y' - era * 400 in
  let mp := if 2 <? m then m - 3 else m + 9 in
  let doy := (153 * mp + 2) / 5 + d - 1 in
  let doe := yoe * 365 + yoe / 4 - yoe / 100 + doy in
  era * 146097 + doe - 719468.

(** The UTC calendar date of a time value. *)
Definition utc_date (t : Z) : Z * Z * Z := civil_from_days (t / msPerDay).

(** The local calendar date of a time value on a machine whose time zone is
    [offset] milliseconds ahead of UTC ([LocalTime(t) = t + offset]). *)
Definition local_date (offset t : Z) : Z * Z * Z := utc_date (t + offset).

(** The [YYYY-MM-DD] part of an ISO string; years outside 0..9999 use the
    expanded six-digit form with a sign. *)
Definition iso_date_part (ymd : Z * Z * Z) : string :=
  let '(y, m, d) := ymd in
  let year :=
    if (0 <=? y) && (y <=? 9999) then digits_pad 4 y
    else (if y <? 0 then "-" else "+") ++ digits_pad 6 (Z.abs y) in
  year ++ "-" ++ digits_pad 2 m ++ "-" ++ digits_pad 2 d.

(** [date.toISOString()]: [YYYY-MM-DDTHH:mm:ss.sssZ]; throws a
    [RangeError] on the invalid date. *)
Definition toISOString (date : Date) : Res string :=
  match date with
  | InvalidDate => Err RangeError
  | DateOf t =>
      let ms := t mod msPerDay in
      Ok (iso_date_part (utc_date t) ++ "T"
          ++ digits_pad 2 (ms / 3600000) ++ ":"
          ++ digits_pad 2 ((ms / 60000) mod 60) ++ ":"
          ++ digits_pad 2 ((ms / 1000) mod 60) ++ "."
          ++ digits_pad 3 (ms mod 1000) ++ "Z")
  end.

Definition obind {A B} (o : option A) (k : A -> option B) : option B :=
  match o with
  | Some a => k a
  | None => None
  end.

Notation "x <-? o ;; k" := (obind o (fun x => k))
  (at level 61, o at next level, right associativity).

Fixpoint take_digits (n : nat) (s : string) (acc : Z) : option (Z * string) :=
  match n with
  | O => Some (acc, s)
  | S n' =>
      match s with
      | String c s' =>
          d <-? digit_value c ;; take_digits n' s' (10 * acc + d)
      | EmptyString => None
      end
  end.

Definition expect (c : ascii) (s : string) : option string :=
  match s with
  | String c' s' => if Ascii.eqb c c' then Some s' else None
  | EmptyString => None
  end.

Definition parse_year (s : string) : option (Z * string) :=
  match s with
  | String c s' =>
      if Ascii.eqb c "+" then take_digits 6 s' 0
      else if Ascii.eqb c "-" then
        yr <-? take_digits 6 s' 0 ;; Some (- fst yr, snd yr)
      else take_digits 4 s 0
  | EmptyString => None
  end.

(** The date-time string format of ECMAScript as far as this program
    meets it: [YYYY-MM-DD] (UTC midnight) and
    [YYYY-MM-DDTHH:mm:ss.sssZ], with four-digit or signed six-digit
    years.  Other text is not a date here (engines accept further,
    implementation-specific formats, which the serializer never writes). *)
Definition parse_iso (s : string) : option Z :=
  yr <-? parse_year s ;;
  r <-? expect "-" (snd yr) ;;
  mo <-? take_digits 2 r 0 ;;
  r <-? expect "-" (snd mo) ;;
  dy <-? take_digits 2 r 0 ;;
  let y := fst yr in let m := fst mo in let d := fst dy in
  if negb ((1 <=? m) && (m <=? 12) && (1 <=? d) && (d <=? 31)) then None else
  let day := days_from_civil y m d in
  match snd dy with
  | EmptyString => Some (day * msPerDay)
  | r =>
      r <-? expect "T" r ;;
      hh <-? take_digits 2 r 0 ;;
      r <-? expect ":" (snd hh) ;;
      mi <-? take_digits 2 r 0 ;;
      r <-? expect ":" (snd mi) ;;
      ss <-? take_digits 2 r 0 ;;
      r <-? expect "." (snd ss) ;;
      ms <-? take_digits 3 r 0 ;;
      r <-? expect "Z" (snd ms) ;;
      match r with
      | EmptyString =>
          if (fst hh <=? 23) && (fst mi <=? 59) && (fst ss <=? 59) then
            Some (day * msPerDay + fst hh * 3600000 + fst mi * 60000
                  + fst ss * 1000 + fst ms)
          else None
      | _ => None
      end
  end.

(** [new Date(v)] for a string or [undefined] ([None]). *)
Definition new_Date (v : option string) : Date :=
  match v with
  | Some s =>
      match parse_iso s with
      | Some t => time_clip t
      | None => InvalidDate
      end
  | None => InvalidDate
  end.

(* ------------------------------------------------------------------ *)
(** ** Sessions and the CSV row format *)

Record TimeSession := mkTimeSession {
  id : string;
  fileName : string;
  filePath : string;
  project : string;
  startTime : Date;
  endTime : option Date;
  duration : Num;
  category : option string;
  notes : option string
}.

Definition CSV_HEADER : string :=
  "id,fileName,filePath,project,startTime,endTime,duration,category,notes".

(** [array.join(sep)] *)
Fixpoint join (sep : string) (l : list string) : string :=
  match l with
  | [] => EmptyString
  | [x] => x
  | x :: r => x ++ sep ++ join sep r
  end.

(** The row [saveSessionsToFile] builds for one session. *)
Definition session_line (session : TimeSession) : Res string :=
  st <-- toISOString (startTime session) ;;
  et <-- match endTime session with
         | Some d => toISOString d
         | None => Ok EmptyString
         end ;;
  Ok (join ","
        [id session;
         escapeCSV (Some (fileName session));
         escapeCSV (Some (filePath session));
         escapeCSV (Some (project session));
         st;
         et;
         num_to_string (duration session);
         escapeCSV (category session);
         escapeCSV (notes session)]).

Fixpoint render_rows (sessions : list TimeSession) : Res string :=
  match sessions with
  | [] => Ok EmptyString
  | s :: rest =>
      line <-- session_line s ;;
      tail <-- render_rows rest ;;
      Ok (line ++ str1 nl ++ tail)
  end.

(** The whole file content written by [saveSessionsToFile]. *)
Definition render_content (sessions : list TimeSession) : Res string :=
  rows <-- render_rows sessions ;;
  Ok (CSV_HEADER ++ str1 nl ++ rows).

(** [fileContent.split(/\r?\n/)]: the loop keeps the current piece. *)
Fixpoint split_lines_loop (s : string) (cur : string) : list string :=
  match s with
  | EmptyString => [cur]
  | String c rest =>
      if Ascii.eqb c nl then cur :: split_lines_loop rest EmptyString
      else if Ascii.eqb c cr then
        match rest with
        | String c' rest' =>
            if Ascii.eqb c' nl then cur :: split_lines_loop rest' EmptyString
            else split_lines_loop rest (cur ++ str1 c)
        | EmptyString => split_lines_loop rest (cur ++ str1 c)
        end
      else split_lines_loop rest (cur ++ str1 c)
  end.

Definition split_lines (s : string) : list string := split_lines_loop s EmptyString.

(** Truthiness of [values[i]], a string or [undefined]. *)
Definition truthy (v : option string) : bool :=
  match v with
  | Some s => negb (String.eqb s EmptyString)
  | None => false
  end.

(** The [map] callback of [loadSessionsFromFile]: one line to one record.
    [values[0]] always exists ([parseCSVLine] returns at least one
    field). *)
Definition parse_record (line : string) : Res TimeSession :=
  let values := parseCSVLine line in
  let v (i : nat) := nth_error values i in
  fn <-- parseCSVValue (v 1%nat) ;;
  fp <-- parseCSVValue (v 2%nat) ;;
  pr <-- parseCSVValue (v 3%nat) ;;
  cat <-- (if truthy (v 7%nat) then c <-- parseCSVValue (v 7%nat) ;; Ok (Some c)
           else Ok None) ;;
  nts <-- (if truthy (v 8%nat) then c <-- parseCSVValue (v 8%nat) ;; Ok (Some c)
           else Ok None) ;;
  Ok {| id := hd EmptyString values;
        fileName := fn;
        filePath := fp;
        project := pr;
        startTime := new_Date (v 4%nat);
        endTime := if truthy (v 5%nat) then Some (new_Date (v 5%nat)) else None;
        duration := js_Number (v 6%nat);
        category := cat;
        notes := nts |}.

Fixpoint mapRes {A B} (f : A -> Res B) (l : list A) : Res (list B) :=
  match l with
  | [] => Ok []
  | x :: r => y <-- f x ;; ys <-- mapRes f r ;; Ok (y :: ys)
  end.

(** The body of the [try] in [loadSessionsFromFile] after reading: drop
    the header line ([lines.shift()]), skip blank lines, map the rest. *)
Definition parse_content (content : string) : Res (list TimeSession) :=
  mapRes parse_record (filter not_blank (tl (split_lines content))).

(* ------------------------------------------------------------------ *)
(** ** The world: files, faults, clock and window messages *)

(** A call into [fs] that may throw. *)
Inductive FsOp :=
| OpRead (p : string)
| OpWrite (p : string)
| OpAppend (p : string)
| OpCopy (src dst : string)
| OpUnlink (p : string).

(** Effects on files, in the order they happen. *)
Inductive FsEvent :=
| Wrote (p c : string)
| Appended (p c : string)
| Copied (src dst : string)
| Unlinked (p : string).

(** [showErrorMessage], [showWarningMessage] and [showInformationMessage]. *)
Inductive Msg := ErrorMsg (text : string) | WarnMsg (text : string) | InfoMsg (text : string).

Record World := mkWorld {
  files : string -> option string;
  fails : FsOp -> bool;
  now : Z;
  baseDirectory : string;
  sessions : list TimeSession;
  ui : list Msg;
  events : list FsEvent
}.

Definition set_files (w : World) (f : string -> option string) : World :=
  mkWorld f (fails w) (now w) (baseDirectory w) (sessions w) (ui w) (events w).
Definition set_sessions (w : World) (l : list TimeSession) : World :=
  mkWorld (files w) (fails w) (now w) (baseDirectory w) l (ui w) (events w).
Definition push_ui (w : World) (m : Msg) : World :=
  mkWorld (files w) (fails w) (now w) (baseDirectory w) (sessions w)
    (ui w ++ [m]) (events w).
Definition push_event (w : World) (e : FsEvent) : World :=
  mkWorld (files w) (fails w) (now w) (baseDirectory w) (sessions w)
    (ui w) (events w ++ [e]).

Definition upd (f : string -> option string) (p : string) (v : option string)
  : string -> option string :=
  fun q => if String.eqb q p then v else f q.

(** Statements of a method: the world is threaded through, a thrown
    exception skips the rest up to the nearest [catch]. *)
Definition M (A : Type) := World -> Res A * World.

Definition ret {A} (a : A) : M A := fun w => (Ok a, w).
Definition bind {A B} (m : M A) (k : A -> M B) : M B :=
  fun w => match m w with
           | (Ok a, w') => k a w'
           | (Err e, w') => (Err e, w')
           end.
Definition throw {A} (e : Exn) : M A := fun w => (Err e, w).
Definition lift {A} (r : Res A) : M A := fun w => (r, w).
Definition catch {A} (m : M A) (h : Exn -> M A) : M A :=
  fun w => match m w with
           | (Err e, w') => h e w'
           | r => r
           end.

Notation "x <- m ;; k" := (bind m (fun x => k))
  (at level 61, m at next level, right associativity).
Notation "m ;; k" := (bind m (fun _ => k))
  (at level 61, right associativity).

Definition existsSync (p : string) : M bool :=
  fun w => (Ok (if files w p then true else false), w).

Definition readFileSync (p : string) : M string :=
  fun w => if fails w (OpRead p) then (Err FsError, w) else
           match files w p with
           | Some c => (Ok c, w)
           | None => (Err FsError, w)
           end.

Definition writeFileSync (p c : string) : M unit :=
  fun w => if fails w (OpWrite p) then (Err FsError, w)
           else (Ok tt, push_event (set_files w (upd (files w) p (Some c))) (Wrote p c)).

Definition copyFileSync (src dst : string) : M unit :=
  fun w => if fails w (OpCopy src dst) then (Err FsError, w) else
           match files w src with
           | Some c => (Ok tt, push_event (set_files w (upd (files w) dst (Some c)))
                                  (Copied src dst))
           | None => (Err FsError, w)
           end.

Definition unlinkSync (p : string) : M unit :=
  fun w => if fails w (OpUnlink p) then (Err FsError, w) else
           match files w p with
           | Some _ => (Ok tt, push_event (set_files w (upd (files w) p None)) (Unlinked p))
           | None => (Err FsError, w)
           end.

Definition showErrorMessage (text : string) : M unit :=
  fun w => (Ok tt, push_ui w (ErrorMsg text)).
Definition showInformationMessage (text : string) : M unit :=
  fun w => (Ok tt, push_ui w (InfoMsg text)).

(* ------------------------------------------------------------------ *)
(** ** [DatabaseService] *)

(** Window messages carry the fixed prefix of their text (the source
    appends [error.message]). *)

(** [path.join(dir, name)] for a normalised directory and a plain file
    name. *)
Definition path_join (dir name : string) : string := dir ++ "/" ++ name.

(** [s.split(DQ T DQ)[0]]: the text before the first [T]. *)
Fixpoint before_T (s : string) : string :=
  match s with
  | EmptyString => EmptyString
  | String c s' => if Ascii.eqb c "T" then EmptyString else String c (before_T s')
  end.

(** [formatDateToString(date)] *)
Definition formatDateToString (date : Date) : Res string :=
  iso <-- toISOString date ;; Ok (before_T iso).

(** [getFilePathForDay(date)] for the service's [baseDirectory]. *)
Definition getFilePathForDay (base : string) (date : Date) : Res string :=
  dateString <-- formatDateToString date ;;
  Ok (path_join base ("time-tracking-" ++ dateString ++ ".csv")).

Definition getFilePathForDay_m (date : Date) : M string :=
  fun w => (getFilePathForDay (baseDirectory w) date, w).

Definition get_now : M Z := fun w => (Ok (now w), w).
Definition put_sessions (l : list TimeSession) : M unit :=
  fun w => (Ok tt, set_sessions w l).

Definition ensureFileExists (filePath : string) : M unit :=
  e <- existsSync filePath ;;
  if e then ret tt
  else catch (writeFileSync filePath (CSV_HEADER ++ str1 nl))
             (fun ex => showErrorMessage "Failed to create CSV file" ;; throw ex).

Definition saveSessionsToFile (ss : list TimeSession) (filePath : string) : M unit :=
  let backupPath := filePath ++ ".backup" in
  catch
    (fileContent <- lift (render_content ss) ;;
     e <- existsSync filePath ;;
     (if e then copyFileSync filePath backupPath else ret tt) ;;
     writeFileSync filePath fileContent ;;
     b <- existsSync backupPath ;;
     (if b then unlinkSync backupPath else ret tt))
    (fun _ =>
     showErrorMessage "Failed to save sessions" ;;
     b <- existsSync backupPath ;;
     (if b then
        catch (copyFileSync backupPath filePath ;;
               showInformationMessage "Restored time tracking data from backup.")
              (fun _ => showErrorMessage "Failed to restore from backup")
      else ret tt)).

Definition loadSessionsFromFile (filePath : string) : M (list TimeSession) :=
  e <- existsSync filePath ;;
  if negb e then ret []
  else catch (fileContent <- readFileSync filePath ;; lift (parse_content fileContent))
             (fun _ => showErrorMessage "Failed to load sessions from CSV" ;; ret []).

(** [dailySessions.findIndex((s) => s.id === i)] *)
Fixpoint findIndex (i : string) (l : list TimeSession) : option nat :=
  match l with
  | [] => None
  | s :: r =>
      if String.eqb (id s) i then Some O
      else option_map S (findIndex i r)
  end.

(** [l[k] = x] for an index [k] below the length. *)
Fixpoint replace_nth {A} (l : list A) (k : nat) (x : A) : list A :=
  match l, k with
  | [], _ => []
  | _ :: r, O => x :: r
  | y :: r, S k' => y :: replace_nth r k' x
  end.

(** The update of [dailySessions] in [saveSession]. *)
Definition upsert (dailySessions : list TimeSession) (session : TimeSession)
  : list TimeSession :=
  match findIndex (id session) dailySessions with
  | Some k => replace_nth dailySessions k session
  | None => (dailySessions ++ [session])%list
  end.

Definition saveSession (session : TimeSession) : M unit :=
  catch
    (let sessionDate := startTime session in
     filePath <- getFilePathForDay_m sessionDate ;;
     ensureFileExists filePath ;;
     dailySessions <- loadSessionsFromFile filePath ;;
     let dailySessions := upsert dailySessions session in
     sd <- lift (formatDateToString sessionDate) ;;
     n <- get_now ;;
     today <- lift (formatDateToString (DateOf n)) ;;
     (if String.eqb sd today then put_sessions dailySessions else ret tt) ;;
     saveSessionsToFile dailySessions filePath)
    (fun _ => showErrorMessage "Failed to save session").

(** [sessionsByDay.get(k)?.push(s)] after creating a missing key; a [Map]
    keeps its keys in insertion order. *)
Fixpoint group_add (k : string) (s : TimeSession)
  (m : list (string * list TimeSession)) : list (string * list TimeSession) :=
  match m with
  | [] => [(k, [s])]
  | (k', g) :: r =>
      if String.eqb k k' then (k', (g ++ [s])%list) :: r else (k', g) :: group_add k s r
  end.

Fixpoint group_by_day (l : list TimeSession) (m : list (string * list TimeSession))
  : Res (list (string * list TimeSession)) :=
  match l with
  | [] => Ok m
  | s :: r => dateKey <-- formatDateToString (startTime s) ;;
              group_by_day r (group_add dateKey s m)
  end.

Fixpoint save_groups (gs : list (string * list TimeSession)) : M unit :=
  match gs with
  | [] => ret tt
  | (dateKey, g) :: r =>
      fp <- getFilePathForDay_m (new_Date (Some dateKey)) ;;
      saveSessionsToFile g fp ;;
      save_groups r
  end.

Definition migrateFromSingleFile (oldFilePath : string) : M bool :=
  e <- existsSync oldFilePath ;;
  if negb e then ret false
  else catch
    (oldSessions <- loadSessionsFromFile oldFilePath ;;
     groups <- lift (group_by_day oldSessions []) ;;
     save_groups groups ;;
     copyFileSync oldFilePath (oldFilePath ++ ".bak") ;;
     ret true)
    (fun _ => showErrorMessage "Failed to migrate data" ;; ret false).

(* ------------------------------------------------------------------ *)
(** ** [TimeTrackerModel] *)

Module Tracker.

(** The active editor: [document.uri.fsPath] and the name of its
    workspace folder, if any. *)
Record Editor := mkEditor { ed_path : string; ed_folder : option string }.

(** Fields of the model; [saved] lists the sessions handed to
    [dbService.saveSession], [ui] the window messages.  [dbService] is
    [false] when the constructor caught a failure of [new DatabaseService()]
    and the field stayed [undefined].  The one-second display timer is
    represented by its callback, the [Tick] event. *)
Record Tracker := mkTracker {
  t_sessions : list TimeSession;
  currentSession : option TimeSession;
  lastActiveFile : option string;
  saved : list TimeSession;
  t_ui : list Msg;
  dbService : bool
}.

(** Calls into the model, with the clock readings they take, in the
    order the code reads them: [closeClock] is the [new Date()] of
    [endCurrentSession] (read only when a session is open), [idClock] the
    [Date.now()] of the new id and [startClock] the [new Date()] of the new
    [startTime]. *)
Inductive Event :=
| StartTracking (editor : option Editor) (closeClock idClock startClock : Z)
| StopTracking (clock : Z)
| HandleEditorChange (editor : option Editor) (closeClock idClock startClock : Z)
| Tick (clock : Z)
| SetCategory (c : string)
| AddNotes (n : string).

(** [filePath.split(/[\\/]/).pop() || DQ DQ]: the text after the last
    separator. *)
Fixpoint last_segment (s cur : string) : string :=
  match s with
  | EmptyString => cur
  | String c s' =>
      if Ascii.eqb c "/" || Ascii.eqb c "092" then last_segment s' EmptyString
      else last_segment s' (cur ++ str1 c)
  end.

Definition elapsed (start : Date) (clock : Z) : Num :=
  match start with
  | DateOf t => NumZ (clock - t)
  | InvalidDate => NaN
  end.

Definition with_end (s : TimeSession) (clock : Z) : TimeSession :=
  {| id := id s; fileName := fileName s; filePath := filePath s;
     project := project s; startTime := startTime s;
     endTime := Some (DateOf clock); duration := elapsed (startTime s) clock;
     category := category s; notes := notes s |}.

(** The copy is pushed to [sessions] first; [this.dbService.saveSession]
    then either takes the session (it catches its own errors) or, with
    [dbService] undefined, throws a [TypeError] that is caught here. *)
Definition endCurrentSession (clock : Z) (st : Tracker) : Tracker :=
  match currentSession st with
  | Some cur =>
      let closed := with_end cur clock in
      if dbService st then
        mkTracker (t_sessions st ++ [closed]) None (lastActiveFile st)
          (saved st ++ [closed]) (t_ui st) (dbService st)
      else
        mkTracker (t_sessions st ++ [closed]) None (lastActiveFile st)
          (saved st) (t_ui st ++ [ErrorMsg "Failed to save time tracking session"])
          (dbService st)
  | None => st
  end.

Definition startTracking (editor : option Editor) (closeClock idClock startClock : Z)
  (st : Tracker) : Tracker :=
  match editor with
  | None =>
      mkTracker (t_sessions st) (currentSession st) (lastActiveFile st) (saved st)
        (t_ui st ++ [WarnMsg "No active editor to track time for."]) (dbService st)
  | Some e =>
      let fp := ed_path e in
      let st1 := endCurrentSession closeClock st in
      let fresh :=
        {| id := num_to_string (NumZ idClock);
           fileName := last_segment fp EmptyString;
           filePath := fp;
           project := match ed_folder e with Some n => n | None => "No Project" end;
           startTime := DateOf startClock;
           endTime := None;
           duration := NumZ 0;
           category := None;
           notes := None |} in
      mkTracker (t_sessions st1) (Some fresh) (Some fp) (saved st1) (t_ui st1)
        (dbService st1)
  end.

Definition stopTracking (clock : Z) (st : Tracker) : Tracker :=
  endCurrentSession clock st.

Definition isTracking (st : Tracker) : bool :=
  if currentSession st then true else false.

(** After the first [endCurrentSession] no session is open, so the one
    inside [startTracking] reads no clock: [closeClock] is the reading of
    the first, [idClock] and [startClock] those of [startTracking]. *)
Definition handleEditorChange (editor : option Editor) (closeClock idClock startClock : Z)
  (st : Tracker) : Tracker :=
  match editor with
  | None => st
  | Some e =>
      let differs :=
        match lastActiveFile st with
        | Some f => negb (String.eqb f (ed_path e))
        | None => true
        end in
      if isTracking st && differs
      then startTracking editor closeClock idClock startClock
             (endCurrentSession closeClock st)
      else st
  end.

Definition map_current (f : TimeSession -> TimeSession) (st : Tracker) : Tracker :=
  mkTracker (t_sessions st) (option_map f (currentSession st)) (lastActiveFile st)
    (saved st) (t_ui st) (dbService st).

Definition set_duration (clock : Z) (s : TimeSession) : TimeSession :=
  {| id := id s; fileName := fileName s; filePath := filePath s;
     project := project s; startTime := startTime s; endTime := endTime s;
     duration := elapsed (startTime s) clock;
     category := category s; notes := notes s |}.

Definition set_category (c : string) (s : TimeSession) : TimeSession :=
  {| id := id s; fileName := fileName s; filePath := filePath s;
     project := project s; startTime := startTime s; endTime := endTime s;
     duration := duration s; category := Some c; notes := notes s |}.

Definition set_notes (n : string) (s : TimeSession) : TimeSession :=
  {| id := id s; fileName := fileName s; filePath := filePath s;
     project := project s; startTime := startTime s; endTime := endTime s;
     duration := duration s; category := category s; notes := Some n |}.

Definition step (ev : Event) (st : Tracker) : Tracker :=
  match ev with
  | StartTracking e c i t => startTracking e c i t st
  | StopTracking c => stopTracking c st
  | HandleEditorChange e c i t => handleEditorChange e c i t st
  | Tick c => map_current (set_duration c) st
  | SetCategory c => map_current (set_category c) st
  | AddNotes n => map_current (set_notes n) st
  end.

Fixpoint run (st : Tracker) (tr : list Event) : Tracker :=
  match tr with
  | [] => st
  | ev :: r => run (step ev st) r
  end.

(** Sessions whose [endTime] is unset: the current one and any such entry
    of the in-memory list. *)
Definition open_count (st : Tracker) : nat :=
  ((if currentSession st then 1 else 0)
   + List.length (filter (fun s => match endTime s with None => true | _ => false end)
                   (t_sessions st)))%nat.

(** A closed session with [endTime >= startTime]. *)
Definition closed_ok (s : TimeSession) : Prop :=
  exists t e, startTime s = DateOf t /\ endTime s = Some (DateOf e) /\ t <= e.

(** The clock readings of a trace never fall below [lo] and never run
    backwards. *)
Fixpoint clock_from (lo : Z) (tr : list Event) : Prop :=
  match tr with
  | [] => True
  | ev :: r =>
      match ev with
      | StartTracking _ c i t | HandleEditorChange _ c i t =>
          lo <= c /\ c <= i /\ i <= t /\ clock_from t r
      | StopTracking c | Tick c => lo <= c /\ clock_from c r
      | _ => clock_from lo r
      end
  end.

(** The last clock reading an event carries, [lo] for the others. *)
Definition ev_clock (lo : Z) (ev : Event) : Z :=
  match ev with
  | StartTracking _ _ _ t | HandleEditorChange _ _ _ t => t
  | StopTracking c | Tick c => c
  | _ => lo
  end.

(** Every session of the in-memory list has its [endTime] set. *)
Definition all_closed (st : Tracker) : Prop :=
  forall s, In s (t_sessions st) -> endTime s <> None.

(** The current session, if any, started at a time value not above [lo]. *)
Definition started_by (lo : Z) (st : Tracker) : Prop :=
  forall cur, currentSession st = Some cur ->
  exists t, startTime cur = DateOf t /\ t <= lo.

(** The current session, if any, has a valid start time and an [id]
    that is the decimal text of a clock value ([Date.now().toString()]). *)
Definition current_ok (st : Tracker) : Prop :=
  forall cur, currentSession st = Some cur ->
  exists t i, startTime cur = DateOf t /\ id cur = num_to_string (NumZ i).

(** A recorded session: closed at [e], its duration is [e - t] for its
    start time value [t], and its id the decimal text of a clock value. *)
Definition recorded_ok (s : TimeSession) : Prop :=
  exists t e i, startTime s = DateOf t /\ endTime s = Some (DateOf e) /\
                duration s = NumZ (e - t) /\ id s = num_to_string (NumZ i).

Definition empty : Tracker := mkTracker [] None None [] [] true.

Definition demo_editor : Editor := mkEditor "/work/demo/main.ts" (Some "demo").
Definition other_editor : Editor := mkEditor "/work/demo/util.ts" (Some "demo").

End Tracker.

(* ------------------------------------------------------------------ *)
(** ** [IdleDetector] *)

Module Idle.

Record Detector := mkDetector {
  lastActivity : Z;
  idleThreshold : Z;
  idleDetected : bool;
  hasOnUserReturned : bool
}.

(** Callback invocations. *)
Inductive Signal := IdleDetected | UserReturned.

Inductive Event :=
| RecordActivity (clock : Z)
| CheckIdleState (clock : Z)
| ThresholdSetting (configThreshold : option Z).

Definition recordActivity (clock : Z) (d : Detector) : Detector * list Signal :=
  let d1 := mkDetector clock (idleThreshold d) (idleDetected d) (hasOnUserReturned d) in
  if idleDetected d then
    (mkDetector clock (idleThreshold d) false (hasOnUserReturned d),
     if hasOnUserReturned d then [UserReturned] else [])
  else (d1, []).

Definition checkIdleState (clock : Z) (d : Detector) : Detector * list Signal :=
  let timeSinceLastActivity := clock - lastActivity d in
  if (idleThreshold d <? timeSinceLastActivity) && negb (idleDetected d) then
    (mkDetector (lastActivity d) (idleThreshold d) true (hasOnUserReturned d),
     [IdleDetected])
  else (d, []).

(** [updateIdleThresholdFromConfig]: seconds to milliseconds. *)
Definition updateIdleThreshold (configThreshold : option Z) (d : Detector) : Detector :=
  match configThreshold with
  | Some v => mkDetector (lastActivity d) (v * 1000) (idleDetected d) (hasOnUserReturned d)
  | None => d
  end.

Definition step (ev : Event) (d : Detector) : Detector * list Signal :=
  match ev with
  | RecordActivity c => recordActivity c d
  | CheckIdleState c => checkIdleState c d
  | ThresholdSetting v => (updateIdleThreshold v d, [])
  end.

Fixpoint run (d : Detector) (tr : list Event) : Detector * list Signal :=
  match tr with
  | [] => (d, [])
  | ev :: r =>
      let '(d1, out1) := step ev d in
      let '(d2, out2) := run d1 r in
      (d2, (out1 ++ out2)%list)
  end.

(** Signals alternate: from the not-idle state an [IdleDetected] comes
    first, then one [UserReturned], and so on. *)
Fixpoint alternating (idle : bool) (out : list Signal) : Prop :=
  match out with
  | [] => True
  | IdleDetected :: r => idle = false /\ alternating true r
  | UserReturned :: r => idle = true /\ alternating false r
  end.

End Idle.

(* ------------------------------------------------------------------ *)
(** ** The [IdleDetector] with notification dismissal *)

Module IdleNotify.

(** The second [IdleDetector] class: it also keeps the idle notification
    it showed ([activeNotification], a [MessageItem] given by its title)
    and the [autoDismissEnabled] setting. *)
Record Detector := mkDetector {
  lastActivity : Z;
  idleThreshold : Z;
  idleDetected : bool;
  activeNotification : option string;
  autoDismissEnabled : bool;
  hasOnUserReturned : bool
}.

(** Callback invocations and the [closeNotification] command. *)
Inductive Signal := IdleDetected | UserReturned | CloseNotification.

Inductive Event :=
| RecordActivity (clock : Z)
| CheckIdleState (clock : Z)
| ThresholdSetting (configThreshold : option Z)
| AutoDismissSetting (autoDismiss : option bool)
| SetActiveNotification (notification : string)
| ClearActiveNotification.

Definition set_active (n : option string) (d : Detector) : Detector :=
  mkDetector (lastActivity d) (idleThreshold d) (idleDetected d) n
    (autoDismissEnabled d) (hasOnUserReturned d).

Definition recordActivity (clock : Z) (d : Detector) : Detector * list Signal :=
  let d1 := mkDetector clock (idleThreshold d) (idleDetected d) (activeNotification d)
              (autoDismissEnabled d) (hasOnUserReturned d) in
  if idleDetected d then
    let d2 := mkDetector clock (idleThreshold d) false (activeNotification d)
                (autoDismissEnabled d) (hasOnUserReturned d) in
    let '(d3, out1) :=
      if (if activeNotification d2 then true else false) && autoDismissEnabled d2
      then (set_active None d2, [CloseNotification])
      else (d2, []) in
    (d3, (out1 ++ if hasOnUserReturned d3 then [UserReturned] else [])%list)
  else (d1, []).

Definition checkIdleState (clock : Z) (d : Detector) : Detector * list Signal :=
  let timeSinceLastActivity := clock - lastActivity d in
  if (idleThreshold d <? timeSinceLastActivity) && negb (idleDetected d) then
    (mkDetector (lastActivity d) (idleThreshold d) true (activeNotification d)
       (autoDismissEnabled d) (hasOnUserReturned d), [IdleDetected])
  else (d, []).

Definition updateIdleThresholdFromConfig (configThreshold : option Z) (d : Detector) : Detector :=
  match configThreshold with
  | Some v => mkDetector (lastActivity d) (v * 1000) (idleDetected d) (activeNotification d)
                (autoDismissEnabled d) (hasOnUserReturned d)
  | None => d
  end.

Definition updateAutoDismissFromConfig (autoDismiss : option bool) (d : Detector) : Detector :=
  match autoDismiss with
  | Some b => mkDetector (lastActivity d) (idleThreshold d) (idleDetected d)
                (activeNotification d) b (hasOnUserReturned d)
  | None => d
  end.

Definition step (ev : Event) (d : Detector) : Detector * list Signal :=
  match ev with
  | RecordActivity c => recordActivity c d
  | CheckIdleState c => checkIdleState c d
  | ThresholdSetting v => (updateIdleThresholdFromConfig v d, [])
  | AutoDismissSetting v => (updateAutoDismissFromConfig v d, [])
  | SetActiveNotification n => (set_active (Some n) d, [])
  | ClearActiveNotification => (set_active None d, [])
  end.

Fixpoint run (d : Detector) (tr : list Event) : Detector * list Signal :=
  match tr with
  | [] => (d, [])
  | ev :: r =>
      let '(d1, out1) := step ev d in
      let '(d2, out2) := run d1 r in
      (d2, (out1 ++ out2)%list)
  end.

Definition closes (out : list Signal) : nat :=
  List.length (filter (fun s => match s with CloseNotification => true | _ => false end) out).

Definition sets (tr : list Event) : nat :=
  List.length (filter (fun ev => match ev with SetActiveNotification _ => true | _ => false end) tr).

Definition held (d : Detector) : nat := if activeNotification d then 1 else 0.

(** No configuration event turns auto-dismiss on. *)
Definition keeps_off (tr : list Event) : bool :=
  forallb (fun ev => match ev with AutoDismissSetting (Some true) => false | _ => true end) tr.

End IdleNotify.

(* ------------------------------------------------------------------ *)
(** ** Concrete inputs *)

Module Sample.

Definition base : string := "/home/dev/time-tracking".

(** 2025-05-06T10:00:00.000Z and 2025-05-06T10:30:00.000Z *)
Definition t_start : Z := 1746525600000.
Definition t_end : Z := 1746527400000.

Definition session_with (i fn : string) (nts : option string) : TimeSession :=
  {| id := i; fileName := fn; filePath := "/work/demo/main.ts"; project := "demo";
     startTime := DateOf t_start; endTime := Some (DateOf t_end);
     duration := NumZ 1800000; category := None; notes := nts |}.

Definition demo : TimeSession := session_with "1" "main.ts" None.

(** A file name that is itself wrapped in double quotes. *)
Definition quoted_name : TimeSession :=
  session_with "1" (str1 dq ++ "main.ts" ++ str1 dq) None.

(** Notes spanning two lines. *)
Definition two_line_notes : TimeSession :=
  session_with "1" "main.ts" (Some ("line one" ++ str1 nl ++ "line two")).

(** An id with a comma in it. *)
Definition comma_id : TimeSession := session_with "1,5" "main.ts" None.

Definition world (fs : string -> option string) (clock : Z) : World :=
  mkWorld fs (fun _ => false) clock base [] [] [].

Definition partition : string := base ++ "/time-tracking-2025-05-06.csv".

(** The row written for [demo]. *)
Definition good_row : string :=
  "1,main.ts,/work/demo/main.ts,demo,2025-05-06T10:00:00.000Z,"
  ++ "2025-05-06T10:30:00.000Z,1800000,,".

(** A day file holding [good_row] and then a line with one field only. *)
Definition file_with_bad_line : string :=
  CSV_HEADER ++ str1 nl ++ good_row ++ str1 nl ++ "garbage" ++ str1 nl.

(** A row with nine fields whose start time is not a date. *)
Definition bad_date_row : string := "2,main.ts,/work/demo/main.ts,demo,yesterday,,0,,".

Definition file_with_bad_date : string :=
  CSV_HEADER ++ str1 nl ++ good_row ++ str1 nl ++ bad_date_row ++ str1 nl.

(** The world whose only file is [partition] with [content]. *)
Definition world_with (content : string) (clock : Z) : World :=
  world (fun q => if String.eqb q partition then Some content else None) clock.

(** The day file holding the row of [demo]. *)
Definition day_file : string := CSV_HEADER ++ str1 nl ++ good_row ++ str1 nl.

(** A second session of the same day. *)
Definition new_session : TimeSession := session_with "2" "main.ts" None.

(** [demo] edited: another file name, same id. *)
Definition renamed : TimeSession := session_with "1" "other.ts" None.

(** A day file holding the row of [demo] twice. *)
Definition dup_file : string :=
  CSV_HEADER ++ str1 nl ++ good_row ++ str1 nl ++ good_row ++ str1 nl.

(** [world_with content clock] where every write of [partition] throws. *)
Definition failing_write_world (content : string) (clock : Z) : World :=
  mkWorld (files (world_with content clock))
          (fun op => match op with OpWrite q => String.eqb q partition | _ => false end)
          clock base [] [] [].

(** The single file of the old storage format. *)
Definition legacy : string := "/home/dev/time-tracking.csv".

(** A world with the old single file only, holding the row of [demo]. *)
Definition legacy_world : World :=
  world (fun q => if String.eqb q legacy then Some day_file else None) 0.

(** The text [render_content] gives for [l], or the empty string. *)
Definition rendered (l : list TimeSession) : string :=
  match render_content l with Ok o => o | Err _ => EmptyString end.

(** A session of the next UTC day. *)
Definition next_day : TimeSession :=
  {| id := "3"; fileName := "util.ts"; filePath := "/work/demo/util.ts"; project := "demo";
     startTime := DateOf (t_start + 86400000); endTime := None;
     duration := NumZ 0; category := Some "review"; notes := None |}.

(** A session whose duration is not a number. *)
Definition nan_session : TimeSession :=
  {| id := "4"; fileName := "main.ts"; filePath := "/work/demo/main.ts"; project := "demo";
     startTime := DateOf t_start; endTime := None;
     duration := NaN; category := None; notes := None |}.

(** The groups [migrateFromSingleFile] builds from [l]. *)
Definition groups (l : list TimeSession) : list (string * list TimeSession) :=
  match group_by_day l [] with Ok m => m | Err _ => [] end.

End Sample.

(** Serialize one session as a partition file and parse the file back. *)
Definition serialize_then_parse (s : TimeSession) : Res (list TimeSession) :=
  c <-- render_content [s] ;; parse_content c.

(** A field that the parser copies verbatim: no comma, no quote. *)
Definition plain (f : string) : bool := negb (includes comma f || includes dq f).

(** [all_below n f]: [f k] holds for every [0 <= k < n] (a finite check
    used in proofs). *)
Fixpoint all_below_from (n : nat) (k : Z) (f : Z -> bool) : bool :=
  match n with
  | O => true
  | S n' => f k && all_below_from n' (k + 1) f
  end.

Definition all_below (n : nat) (f : Z -> bool) : bool := all_below_from n 0 f.

(** Month and day of a day of the 400-year era are in range. *)
Definition md_in_range (doe : Z) : bool :=
  let '(_, m, d) := civil_of_doe 0 doe in
  (1 <=? m) && (m <=? 12) && (1 <=? d) && (d <=? 31).

(** An [id] that [escapeCSV] would leave as it is. *)
Definition csv_safe (v : string) : bool :=
  negb (includes comma v || includes dq v || includes nl v).

(** How many records of a list carry the id [i]. *)
Definition count_id (i : string) (l : list TimeSession) : nat :=
  List.length (filter (fun r => String.eqb (id r) i) l).

(** [days_from_civil] inverts [civil_from_days] on a day of the 400-year
    era, whose year lies in 0..400 (a finite check used in proofs). *)
Definition civil_roundtrip (doe : Z) : bool :=
  let '(y, m, d) := civil_of_doe 0 doe in
  (0 <=? y) && (y <=? 400) && (days_from_civil y m d =? doe - 719468).

(** A text with no line break, LF or CR, in it. *)
Definition one_line (v : string) : bool := negb (includes nl v || includes cr v).

(** A text field [parseCSVValue] reads back as itself after
    [parseCSVLine]: on one line, and not both starting and ending with a
    double quote. *)
Definition text_ok (v : string) : bool :=
  one_line v && negb (starts_with dq v && ends_with dq v).

(** An optional field ([category], [notes]) that survives the falsy
    test of [loadSessionsFromFile]: absent, or a non-empty [text_ok]. *)
Definition opt_text_ok (o : option string) : bool :=
  match o with
  | None => true
  | Some v => negb (String.eqb v EmptyString) && text_ok v
  end.

(** A date that [toISOString] renders and [new Date] accepts back. *)
Definition date_ok (d : Date) : bool :=
  match d with
  | DateOf t => Z.abs t <=? 8640000000000000
  | InvalidDate => false
  end.

(** A session whose CSV row reads back as the same session: the [id],
    written unescaped, holds no comma, quote or line break; the other
    text fields are [text_ok]; the dates are valid. *)
Definition row_ok (s : TimeSession) : bool :=
  csv_safe (id s) && one_line (id s)
  && text_ok (fileName s) && text_ok (filePath s) && text_ok (project s)
  && date_ok (startTime s)
  && match endTime s with Some d => date_ok d | None => true end
  && opt_text_ok (category s) && opt_text_ok (notes s).

(** A field of a row with the value the line parser reads from it. *)
Definition reads_as (f d : string) : Prop :=
  forall s acc, starts_with dq s = false ->
    parse_loop (f ++ s) false EmptyString acc = parse_loop s false d acc.

(** The group stored under [k] in a map built by [group_add], empty when
    the key is absent. *)
Fixpoint group_of (k : string) (m : list (string * list TimeSession)) : list TimeSession :=
  match m with
  | [] => []
  | (k', g) :: r => if String.eqb k k' then g else group_of k r
  end.

(** The session starts on the UTC day [k] ([formatDateToString]). *)
Definition same_day (k : string) (s : TimeSession) : bool :=
  match formatDateToString (startTime s) with
  | Ok k' => String.eqb k' k
  | Err _ => false
  end.

(** [a + b] on numbers: [NaN] absorbs. *)
Definition num_add (a b : Num) : Num :=
  match a, b with
  | NumZ x, NumZ y => NumZ (x + y)
  | _, _ => NaN
  end.

(** [v || 0] for a number or [undefined]: [NaN], [0] and [undefined] are
    falsy, and [0 || 0] is [0]. *)
Definition or_zero (v : option Num) : Num :=
  match v with
  | Some (NumZ z) => NumZ z
  | _ => NumZ 0
  end.

(** [session.category || "Uncategorized"] *)
Definition category_key (s : TimeSession) : string :=
  match category s with
  | Some c => if String.eqb c EmptyString then "Uncategorized" else c
  | None => "Uncategorized"
  end.

(** [map.get(k)] and [map.set(k, v)] on a [Map] kept as its entries in
    insertion order: setting a present key keeps its place. *)
Fixpoint map_get {V} (k : string) (m : list (string * V)) : option V :=
  match m with
  | [] => None
  | (k', v) :: r => if String.eqb k k' then Some v else map_get k r
  end.

Fixpoint map_set {V} (k : string) (v : V) (m : list (string * V)) : list (string * V) :=
  match m with
  | [] => [(k, v)]
  | (k', v') :: r => if String.eqb k k' then (k', v) :: r else (k', v') :: map_set k v r
  end.

(** One turn of the loop of [getCategoryStats]. *)
Definition add_category (categoryMap : list (string * Num)) (session : TimeSession)
  : list (string * Num) :=
  let c := category_key session in
  let currentValue := or_zero (map_get c categoryMap) in
  map_set c (num_add currentValue (duration session)) categoryMap.

(** [getCategoryStats] on the loaded sessions: the entries of the map, as
    (category, duration) pairs. *)
Definition category_stats (sessions : list TimeSession) : list (string * Num) :=
  fold_left add_category sessions [].

(** [getProjectTotalTime] on the loaded sessions. *)
Definition project_total (p : string) (sessions : list TimeSession) : Num :=
  fold_left (fun total session => num_add total (duration session))
    (filter (fun session => String.eqb (project session) p) sessions) (NumZ 0).

(** Sum of numbers, [NaN] absorbing. *)
Definition num_sum (l : list Num) : Num := fold_right num_add (NumZ 0) l.

(** The value of one category along the loop of [getCategoryStats]. *)
Definition cat_step (k : string) (acc : option Num) (s : TimeSession) : option Num :=
  if String.eqb k (category_key s) then Some (num_add (or_zero acc) (duration s)) else acc.

(* ================================================================== *)
(** * Properties *)

(* ------------------------------------------------------------------ *)
(** ** Generic facts on strings and the CSV parser *)

Lemma sapp_assoc (a b c : string) : (a ++ b) ++ c = a ++ (b ++ c).
Proof. induction a as [|x a IH]; simpl; [reflexivity | now rewrite IH]. Qed.

Lemma sapp_nil_r (a : string) : a ++ EmptyString = a.
Proof. induction a as [|x a IH]; simpl; [reflexivity | now rewrite IH]. Qed.

Lemma includes_app (c : ascii) (a b : string) :
  includes c (a ++ b) = includes c a || includes c b.
Proof.
  induction a as [|x a IH]; simpl; [reflexivity|].
  rewrite IH. now rewrite orb_assoc.
Qed.

Lemma plain_app (a b : string) : plain (a ++ b) = plain a && plain b.
Proof.
  unfold plain. rewrite !includes_app.
  destruct (includes comma a), (includes dq a), (includes comma b), (includes dq b);
    reflexivity.
Qed.

Lemma parse_loop_plain (f s cur : string) (acc : list string) :
  plain f = true ->
  parse_loop (f ++ s) false cur acc = parse_loop s false (cur ++ f) acc.
Proof.
  revert cur. induction f as [|c f IH]; intros cur Hf.
  - simpl. now rewrite sapp_nil_r.
  - unfold plain in Hf. cbn [includes] in Hf.
    destruct (Ascii.eqb comma c) eqn:Ec; [simpl in Hf; discriminate|].
    destruct (Ascii.eqb dq c) eqn:Eq; [rewrite orb_true_r in Hf; discriminate|].
    cbn [String.append parse_loop].
    rewrite (Ascii.eqb_sym c dq), Eq, (Ascii.eqb_sym c comma), Ec.
    rewrite IH by (unfold plain; exact Hf).
    now rewrite sapp_assoc.
Qed.

(** Inside quotes, a doubled quote reads as one quote and the closing quote
    ends the quoted part, provided no quote follows it. *)
Lemma parse_loop_quoted (v s cur : string) (acc : list string) :
  starts_with dq s = false ->
  parse_loop (double_quotes v ++ str1 dq ++ s) true cur acc
  = parse_loop s false (cur ++ v) acc.
Proof.
  revert cur. induction v as [|c v IH]; intros cur Hs.
  - cbn [double_quotes String.append str1 parse_loop].
    rewrite Ascii.eqb_refl, sapp_nil_r.
    destruct s as [|c' s']; [reflexivity|].
    cbn [starts_with] in Hs. rewrite Ascii.eqb_sym, Hs. reflexivity.
  - cbn [double_quotes]. destruct (Ascii.eqb c dq) eqn:Ec.
    + apply Ascii.eqb_eq in Ec. subst c.
      cbn [String.append parse_loop]. rewrite Ascii.eqb_refl. cbn [andb].
      rewrite IH by exact Hs. rewrite sapp_assoc. reflexivity.
    + cbn [String.append parse_loop]. rewrite Ec.
      replace (Ascii.eqb c comma && negb true) with false
        by (rewrite andb_false_r; reflexivity).
      rewrite IH by exact Hs. now rewrite sapp_assoc.
Qed.

Lemma parse_loop_open_quote (r cur : string) (acc : list string) :
  parse_loop (String dq r) false cur acc = parse_loop r true cur acc.
Proof.
  destruct r as [|c r]; cbn [parse_loop]; rewrite Ascii.eqb_refl; reflexivity.
Qed.

Lemma parse_loop_comma (r cur : string) (acc : list string) :
  parse_loop (String comma r) false cur acc
  = parse_loop r false EmptyString (acc ++ [cur]).
Proof. reflexivity. Qed.

(** Every field [escapeCSV] returns is read back as one field. *)
Lemma parse_loop_escaped (v : option string) :
  exists d, forall s acc, starts_with dq s = false ->
    parse_loop (escapeCSV v ++ s) false EmptyString acc = parse_loop s false d acc.
Proof.
  destruct v as [v|]; cbn [escapeCSV].
  - destruct (includes comma v || includes dq v || includes nl v) eqn:E.
    + exists v. intros s acc Hs.
      rewrite !sapp_assoc. cbn [str1 String.append].
      rewrite parse_loop_open_quote.
      apply (parse_loop_quoted v s EmptyString acc Hs).
    + exists v. intros s acc Hs.
      apply parse_loop_plain.
      unfold plain. apply orb_false_iff in E as [E _].
      now rewrite E.
  - exists EmptyString. intros s acc _. reflexivity.
Qed.

Lemma Ok_inj {A} (a b : A) : Ok a = Ok b -> a = b.
Proof. congruence. Qed.

Lemma plain_digit_char (k : Z) : k < 10 -> plain (str1 (digit_char k)) = true.
Proof.
  intros Hk. unfold digit_char.
  assert (H : (Z.to_nat k < 10)%nat) by lia.
  destruct (Z.to_nat k) as [|[|[|[|[|[|[|[|[|[|j]]]]]]]]]];
    [reflexivity .. | lia].
Qed.

Lemma plain_digits_pad (w : nat) (n : Z) : plain (digits_pad w n) = true.
Proof.
  revert n. induction w as [|w IH]; intros n; [reflexivity|].
  cbn [digits_pad]. rewrite plain_app, IH, plain_digit_char; [reflexivity|].
  pose proof (Z.mod_pos_bound n 10). lia.
Qed.

Lemma plain_dec_digits (fuel : nat) (n : Z) : plain (dec_digits fuel n) = true.
Proof.
  revert n. induction fuel as [|f IH]; intros n; cbn [dec_digits].
  - apply plain_digit_char. pose proof (Z.mod_pos_bound n 10). lia.
  - destruct (n <? 10) eqn:E.
    + apply plain_digit_char. lia.
    + rewrite plain_app, IH, plain_digit_char; [reflexivity|].
      pose proof (Z.mod_pos_bound n 10). lia.
Qed.

Lemma plain_num_to_string (x : Num) : plain (num_to_string x) = true.
Proof.
  destruct x as [z|]; [|reflexivity]. cbn [num_to_string]. unfold dec_of_nonneg.
  destruct (z <? 0).
  - rewrite plain_app, plain_dec_digits. reflexivity.
  - apply plain_dec_digits.
Qed.

Ltac plain_pieces :=
  repeat (rewrite plain_app || rewrite plain_digits_pad); reflexivity.

Lemma plain_iso_date_part (ymd : Z * Z * Z) : plain (iso_date_part ymd) = true.
Proof.
  destruct ymd as [[y m] d]. unfold iso_date_part.
  destruct ((0 <=? y) && (y <=? 9999)); [|destruct (y <? 0)]; plain_pieces.
Qed.

Lemma plain_toISOString (date : Date) (r : string) :
  toISOString date = Ok r -> plain r = true.
Proof.
  destruct date as [t|]; intros H; [|discriminate].
  unfold toISOString in H. apply Ok_inj in H. subst r.
  rewrite plain_app, plain_iso_date_part. plain_pieces.
Qed.

(** A field the parser reads as exactly one field, whatever follows it
    (short of a quote). *)
Lemma parse_loop_plain_one (f : string) :
  plain f = true ->
  exists d, forall s acc, starts_with dq s = false ->
    parse_loop (f ++ s) false EmptyString acc = parse_loop s false d acc.
Proof.
  intros Hf. exists f. intros s acc _. now apply parse_loop_plain.
Qed.

Lemma parse_loop_join (fields acc : list string) :
  fields <> [] ->
  Forall (fun f => exists d, forall s acc, starts_with dq s = false ->
            parse_loop (f ++ s) false EmptyString acc = parse_loop s false d acc) fields ->
  List.length (parse_loop (join "," fields) false EmptyString acc)
  = (List.length acc + List.length fields)%nat.
Proof.
  revert acc. induction fields as [|f r IH]; intros acc Hne Hall; [congruence|].
  inversion Hall as [|f' r' [d Hd] Hr]; subst.
  destruct r as [|g r].
  - cbn [join]. rewrite <- (sapp_nil_r f), Hd by reflexivity.
    cbn [parse_loop]. rewrite length_app. reflexivity.
  - change (join "," (f :: g :: r)) with (f ++ String comma (join "," (g :: r))).
    rewrite Hd by reflexivity. rewrite parse_loop_comma.
    rewrite IH by (congruence || assumption).
    rewrite length_app. cbn [List.length]. lia.
Qed.

Lemma plain_of_csv_safe (v : string) : csv_safe v = true -> plain v = true.
Proof.
  unfold csv_safe, plain.
  destruct (includes comma v), (includes dq v), (includes nl v); easy.
Qed.

(* ------------------------------------------------------------------ *)
(** ** The CSV row format *)

(** Claim C1: serializing a session and parsing the partition back
    does not give the session back.  A file name wrapped in double quotes
    is unquoted twice (once by [parseCSVLine], once more by
    [parseCSVValue]) and comes back without its quotes; notes with a
    newline are split across two physical lines by [split(/\r?\n/)], the
    second line has one field, and the whole load throws. *)
Theorem C1_roundtrip_breaks :
  serialize_then_parse Sample.quoted_name = Ok [Sample.demo] /\
  Sample.quoted_name <> Sample.demo /\
  serialize_then_parse Sample.two_line_notes = Err TypeError.
Proof.
  split; [vm_compute; reflexivity|].
  split; [discriminate | vm_compute; reflexivity].
Qed.

(** C10: the serializer writes [id] (and the timestamps and the duration)
    without escaping.  Every row starts with the id as it is; a row whose
    id has no comma, double quote or newline parses into exactly nine
    fields; a row whose id has a comma parses into more fields, shifted,
    and gives back a different session. *)
Theorem C10_id_written_verbatim :
  (forall s line, session_line s = Ok line ->
     exists rest, line = id s ++ "," ++ rest) /\
  (forall s line, csv_safe (id s) = true -> session_line s = Ok line ->
     List.length (parseCSVLine line) = 9%nat) /\
  (exists s line, includes comma (id s) = true /\ session_line s = Ok line /\
     List.length (parseCSVLine line) = 10%nat /\ parse_record line <> Ok s).
Proof.
  split; [|split].
  - intros s line H. unfold session_line in H.
    destruct (toISOString (startTime s)) as [st|e]; [|discriminate].
    cbn [rbind] in H.
    destruct (match endTime s with Some d => toISOString d | None => Ok EmptyString end)
      as [et|e]; [|discriminate].
    cbn [rbind] in H. apply Ok_inj in H. subst line.
    eexists. reflexivity.
  - intros s line Hid H. unfold session_line in H.
    destruct (toISOString (startTime s)) as [st|e] eqn:Est; [|discriminate].
    cbn [rbind] in H.
    destruct (match endTime s with Some d => toISOString d | None => Ok EmptyString end)
      as [et|e] eqn:Eet; [|discriminate].
    cbn [rbind] in H. apply Ok_inj in H. subst line.
    unfold parseCSVLine. rewrite parse_loop_join; [reflexivity | discriminate |].
    assert (Pet : plain et = true).
    { destruct (endTime s) as [d|].
      - exact (plain_toISOString d et Eet).
      - apply Ok_inj in Eet. now subst et. }
    repeat apply Forall_cons; try apply Forall_nil;
      first [ apply parse_loop_escaped
            | apply parse_loop_plain_one;
              first [ now apply plain_of_csv_safe
                    | exact (plain_toISOString _ _ Est)
                    | exact Pet
                    | apply plain_num_to_string ] ].
  - exists Sample.comma_id.
    destruct (session_line Sample.comma_id) as [line|e] eqn:E;
      [|vm_compute in E; discriminate].
    exists line. split; [reflexivity|]. split; [reflexivity|].
    vm_compute in E. apply Ok_inj in E. subst line.
    split; [vm_compute; reflexivity|].
    vm_compute. discriminate.
Qed.

(* ------------------------------------------------------------------ *)
(** ** Dates and partition file names *)

Lemma all_below_from_spec (n : nat) (k : Z) (f : Z -> bool) :
  all_below_from n k f = true -> forall j, k <= j < k + Z.of_nat n -> f j = true.
Proof.
  revert k. induction n as [|n IH]; intros k H j Hj; [lia|].
  cbn [all_below_from] in H. apply andb_true_iff in H as [H1 H2].
  destruct (Z.eq_dec j k) as [->|Hne]; [exact H1|].
  apply (IH (k + 1)); [exact H2 | lia].
Qed.

Lemma all_below_spec (n : nat) (f : Z -> bool) :
  all_below n f = true -> forall k, 0 <= k < Z.of_nat n -> f k = true.
Proof.
  intros H k Hk. apply (all_below_from_spec n 0 f H). lia.
Qed.

Lemma civil_of_doe_md (era1 era2 doe : Z) :
  snd (fst (civil_of_doe era1 doe)) = snd (fst (civil_of_doe era2 doe)) /\
  snd (civil_of_doe era1 doe) = snd (civil_of_doe era2 doe).
Proof. unfold civil_of_doe. cbn [fst snd]. split; reflexivity. Qed.

Lemma md_in_range_all : all_below (Z.to_nat 146097) md_in_range = true.
Proof. vm_compute. reflexivity. Qed.

Lemma civil_md_bounds (days : Z) :
  let '(_, m, d) := civil_from_days days in 1 <= m <= 12 /\ 1 <= d <= 31.
Proof.
  unfold civil_from_days.
  set (z := days + 719468).
  assert (Hdoe : 0 <= z - z / 146097 * 146097 < 146097).
  { pose proof (Z.mod_pos_bound z 146097). rewrite Z.mod_eq in H by lia. lia. }
  pose proof (all_below_spec _ _ md_in_range_all _ Hdoe) as H.
  unfold md_in_range in H.
  destruct (civil_of_doe_md (z / 146097) 0 (z - z / 146097 * 146097)) as [Hm Hd].
  destruct (civil_of_doe (z / 146097) (z - z / 146097 * 146097)) as [[y m] d].
  destruct (civil_of_doe 0 (z - z / 146097 * 146097)) as [[y0 m0] d0].
  cbn in Hm, Hd. subst m0 d0.
  apply andb_true_iff in H as [H Hd2]. apply andb_true_iff in H as [H Hd1].
  apply andb_true_iff in H as [Hm1 Hm2].
  apply Z.leb_le in Hm1, Hm2, Hd1, Hd2. lia.
Qed.

Lemma digit_char_code (k : Z) :
  0 <= k < 10 -> nat_of_ascii (digit_char k) = (48 + Z.to_nat k)%nat.
Proof.
  intros Hk. unfold digit_char. apply nat_ascii_embedding. lia.
Qed.

Lemma digit_char_inj (a b : Z) :
  0 <= a < 10 -> 0 <= b < 10 -> digit_char a = digit_char b -> a = b.
Proof.
  intros Ha Hb H. apply (f_equal nat_of_ascii) in H.
  rewrite !digit_char_code in H by assumption. lia.
Qed.

Lemma digit_char_not (c : ascii) (k : Z) :
  0 <= k < 10 -> (nat_of_ascii c < 48 \/ 57 < nat_of_ascii c)%nat ->
  Ascii.eqb c (digit_char k) = false.
Proof.
  intros Hk Hc. apply Ascii.eqb_neq. intros ->.
  rewrite digit_char_code in Hc by exact Hk. lia.
Qed.

Lemma includes_digits_pad (c : ascii) (w : nat) (n : Z) :
  (nat_of_ascii c < 48 \/ 57 < nat_of_ascii c)%nat ->
  includes c (digits_pad w n) = false.
Proof.
  intros Hc. revert n. induction w as [|w IH]; intros n; [reflexivity|].
  cbn [digits_pad]. rewrite includes_app, IH. cbn [str1 includes].
  rewrite digit_char_not; [reflexivity | | exact Hc].
  apply Z.mod_pos_bound. lia.
Qed.

Lemma before_T_app (a b : string) :
  includes "T" a = false -> before_T (a ++ "T" ++ b) = a.
Proof.
  induction a as [|c a IH]; intros H; [reflexivity|].
  cbn [includes] in H. apply orb_false_iff in H as [Hc H].
  change (String c a ++ "T" ++ b) with (String c (a ++ "T" ++ b)).
  cbn [before_T]. rewrite Ascii.eqb_sym, Hc, IH by exact H. reflexivity.
Qed.

Lemma no_T_iso_date_part (ymd : Z * Z * Z) : includes "T" (iso_date_part ymd) = false.
Proof.
  destruct ymd as [[y m] d]. unfold iso_date_part.
  assert (HT : (nat_of_ascii "T" < 48 \/ 57 < nat_of_ascii "T")%nat) by (right; cbv; lia).
  destruct ((0 <=? y) && (y <=? 9999)); [|destruct (y <? 0)];
    repeat (rewrite includes_app || rewrite (includes_digits_pad _ _ _ HT));
    reflexivity.
Qed.

Lemma formatDateToString_DateOf (t : Z) :
  formatDateToString (DateOf t) = Ok (iso_date_part (utc_date t)).
Proof.
  unfold formatDateToString, toISOString. cbn [rbind].
  rewrite before_T_app by apply no_T_iso_date_part. reflexivity.
Qed.

Lemma getFilePathForDay_DateOf (base : string) (t : Z) :
  getFilePathForDay base (DateOf t)
  = Ok (path_join base ("time-tracking-" ++ iso_date_part (utc_date t) ++ ".csv")).
Proof.
  unfold getFilePathForDay. rewrite formatDateToString_DateOf. reflexivity.
Qed.

Lemma slength_app (a b : string) :
  String.length (a ++ b) = (String.length a + String.length b)%nat.
Proof. induction a as [|c a IH]; cbn; [reflexivity | now rewrite IH]. Qed.

Lemma sapp_cancel_l (a x y : string) : a ++ x = a ++ y -> x = y.
Proof.
  induction a as [|c a IH]; cbn; [auto|]. intros H. injection H. exact IH.
Qed.

Lemma sapp_split (a1 a2 b1 b2 : string) :
  String.length a1 = String.length a2 -> a1 ++ b1 = a2 ++ b2 -> a1 = a2 /\ b1 = b2.
Proof.
  revert a2. induction a1 as [|c a1 IH]; intros [|c' a2] Hl H; cbn in *;
    try discriminate; [auto|].
  injection H as -> H. injection Hl as Hl.
  destruct (IH a2 Hl H) as [-> ->]. auto.
Qed.

Lemma sapp_cancel_r (x y s : string) : x ++ s = y ++ s -> x = y.
Proof.
  intros H.
  assert (Hl : String.length x = String.length y).
  { apply (f_equal String.length) in H. rewrite !slength_app in H. lia. }
  exact (proj1 (sapp_split _ _ _ _ Hl H)).
Qed.

Lemma length_digits_pad (w : nat) (n : Z) : String.length (digits_pad w n) = w.
Proof.
  revert n. induction w as [|w IH]; intros n; [reflexivity|].
  cbn [digits_pad]. rewrite slength_app, IH. cbn. lia.
Qed.

Lemma digits_pad_inj (w : nat) (n1 n2 : Z) :
  0 <= n1 < 10 ^ Z.of_nat w -> 0 <= n2 < 10 ^ Z.of_nat w ->
  digits_pad w n1 = digits_pad w n2 -> n1 = n2.
Proof.
  revert n1 n2. induction w as [|w IH]; intros n1 n2 H1 H2 H.
  - cbn in H1, H2. lia.
  - cbn [digits_pad] in H.
    apply sapp_split in H as [Hq Hr]; [|now rewrite !length_digits_pad].
    injection Hr as Hr.
    rewrite Nat2Z.inj_succ, Z.pow_succ_r in H1, H2 by lia.
    pose proof (Z.mod_pos_bound n1 10) as M1.
    pose proof (Z.mod_pos_bound n2 10) as M2.
    apply digit_char_inj in Hr; [|lia|lia].
    apply IH in Hq.
    + rewrite (Z.div_mod n1 10), (Z.div_mod n2 10) by lia. lia.
    + split; [apply Z.div_pos; lia | apply Z.div_lt_upper_bound; lia].
    + split; [apply Z.div_pos; lia | apply Z.div_lt_upper_bound; lia].
Qed.

Lemma iso_date_part_inj (y1 m1 d1 y2 m2 d2 : Z) :
  0 <= y1 <= 9999 -> 0 <= y2 <= 9999 ->
  1 <= m1 <= 12 -> 1 <= d1 <= 31 -> 1 <= m2 <= 12 -> 1 <= d2 <= 31 ->
  iso_date_part (y1, m1, d1) = iso_date_part (y2, m2, d2) ->
  (y1, m1, d1) = (y2, m2, d2).
Proof.
  intros Y1 Y2 M1 D1 M2 D2 H. unfold iso_date_part in H.
  replace ((0 <=? y1) && (y1 <=? 9999)) with true in H
    by (symmetry; apply andb_true_iff; split; apply Z.leb_le; lia).
  replace ((0 <=? y2) && (y2 <=? 9999)) with true in H
    by (symmetry; apply andb_true_iff; split; apply Z.leb_le; lia).
  apply sapp_split in H as [Hy H]; [|now rewrite !length_digits_pad].
  apply sapp_cancel_l in H.
  apply sapp_split in H as [Hm H]; [|now rewrite !length_digits_pad].
  apply sapp_cancel_l in H as Hd.
  apply digits_pad_inj in Hy; [|cbn; lia|cbn; lia].
  apply digits_pad_inj in Hm; [|cbn; lia|cbn; lia].
  apply digits_pad_inj in Hd; [|cbn; lia|cbn; lia].
  now subst.
Qed.

(** Claim C2, as the code behaves: [formatDateToString] takes the date
    part of [toISOString], which is the UTC calendar date, so two start
    times share a partition file exactly when their UTC dates agree
    (for years 0 to 9999, the years [toISOString] writes with four
    digits).  The local time zone plays no part. *)
Theorem C2_partition_by_utc_date (base : string) (t1 t2 : Z)
  (H1 : 0 <= fst (fst (utc_date t1)) <= 9999)
  (H2 : 0 <= fst (fst (utc_date t2)) <= 9999) :
  getFilePathForDay base (DateOf t1) = getFilePathForDay base (DateOf t2)
  <-> utc_date t1 = utc_date t2.
Proof.
  rewrite !getFilePathForDay_DateOf. split; [|intros ->; reflexivity].
  intros H. apply Ok_inj in H. unfold path_join in H.
  apply sapp_cancel_l, sapp_cancel_l, sapp_cancel_l, sapp_cancel_r in H.
  pose proof (civil_md_bounds (t1 / msPerDay)) as B1.
  pose proof (civil_md_bounds (t2 / msPerDay)) as B2.
  unfold utc_date in *.
  destruct (civil_from_days (t1 / msPerDay)) as [[y1 m1] d1].
  destruct (civil_from_days (t2 / msPerDay)) as [[y2 m2] d2].
  cbn [fst snd] in H1, H2. destruct B1, B2.
  apply iso_date_part_inj; assumption.
Qed.

Lemma C2_partition_by_utc_date_witness :
  (0 <= fst (fst (utc_date Sample.t_start)) <= 9999) /\
  (0 <= fst (fst (utc_date Sample.t_end)) <= 9999) /\
  (getFilePathForDay Sample.base (DateOf Sample.t_start)
   = getFilePathForDay Sample.base (DateOf Sample.t_end)
   <-> utc_date Sample.t_start = utc_date Sample.t_end).
Proof.
  assert (Y1 : fst (fst (utc_date Sample.t_start)) = 2025) by (vm_compute; reflexivity).
  assert (Y2 : fst (fst (utc_date Sample.t_end)) = 2025) by (vm_compute; reflexivity).
  refine (conj _ (conj _ _)); [lia | lia |].
  apply C2_partition_by_utc_date; lia.
Defined.

(** Claim C2, against the local-date reading: on a machine two hours
    ahead of UTC, 01:00 and 03:00 local time on 2025-05-06 are the same
    local calendar date, yet they are written to different partition
    files, since their UTC dates are 2025-05-05 and 2025-05-06. *)
Lemma C2_local_date_counterexample :
  local_date 7200000 (1746489600000 - 3600000)
  = local_date 7200000 (1746489600000 + 3600000) /\
  getFilePathForDay Sample.base (DateOf (1746489600000 - 3600000))
  <> getFilePathForDay Sample.base (DateOf (1746489600000 + 3600000)).
Proof.
  split; [vm_compute; reflexivity|].
  vm_compute. intros H. discriminate H.
Qed.

(* ------------------------------------------------------------------ *)
(** ** Loading a day file *)

Lemma mapRes_in_err {A B} (f : A -> Res B) (l : list A) (x : A) (e : Exn) :
  In x l -> f x = Err e -> exists e', mapRes f l = Err e'.
Proof.
  induction l as [|a l IH]; intros Hin Hx; [destruct Hin|].
  destruct Hin as [->|Hin].
  - exists e. cbn [mapRes]. rewrite Hx. reflexivity.
  - cbn [mapRes]. destruct (f a) as [b|e0]; cbn [rbind].
    + destruct (IH Hin Hx) as [e' ->]. exists e'. reflexivity.
    + exists e0. reflexivity.
Qed.

Lemma load_missing (p : string) (w : World) :
  files w p = None -> loadSessionsFromFile p w = (Ok [], w).
Proof.
  intros H. unfold loadSessionsFromFile, bind, existsSync, ret. now rewrite H.
Qed.

Lemma load_readable (p c : string) (w : World) :
  files w p = Some c -> fails w (OpRead p) = false ->
  loadSessionsFromFile p w
  = match parse_content c with
    | Ok l => (Ok l, w)
    | Err _ => (Ok [], push_ui w (ErrorMsg "Failed to load sessions from CSV"))
    end.
Proof.
  intros Hc Hf.
  unfold loadSessionsFromFile, bind, existsSync, catch, readFileSync, lift, ret,
    showErrorMessage.
  rewrite Hc. cbn [negb]. cbv beta iota. rewrite Hf, Hc.
  destruct (parse_content c); reflexivity.
Qed.

(** Claim C3, as the code behaves: a missing day file loads as the empty
    list; a readable one loads as the parse of its lines when every kept
    line parses, and as the empty list, with an error message, as soon as
    one kept line fails to parse: the well-formed lines of that file are
    dropped with it. *)
Theorem C3_load_all_or_nothing (p : string) (w : World) :
  (files w p = None -> loadSessionsFromFile p w = (Ok [], w)) /\
  (forall c, files w p = Some c -> fails w (OpRead p) = false ->
     (forall l, parse_content c = Ok l -> loadSessionsFromFile p w = (Ok l, w)) /\
     (forall line e,
        In line (filter not_blank (tl (split_lines c))) -> parse_record line = Err e ->
        loadSessionsFromFile p w
        = (Ok [], push_ui w (ErrorMsg "Failed to load sessions from CSV")))).
Proof.
  split; [apply load_missing|].
  intros c Hc Hf. rewrite (load_readable p c w Hc Hf). split.
  - intros l ->. reflexivity.
  - intros line e Hin He. unfold parse_content.
    destruct (mapRes_in_err parse_record _ line e Hin He) as [e' ->].
    reflexivity.
Qed.

Lemma C3_load_all_or_nothing_witness :
  loadSessionsFromFile Sample.partition (Sample.world_with Sample.file_with_bad_line 0)
  = (Ok [], push_ui (Sample.world_with Sample.file_with_bad_line 0)
                    (ErrorMsg "Failed to load sessions from CSV")).
Proof.
  refine (proj2 (proj2 (C3_load_all_or_nothing Sample.partition
                           (Sample.world_with Sample.file_with_bad_line 0))
                   Sample.file_with_bad_line eq_refl eq_refl)
                "garbage" TypeError _ eq_refl).
  vm_compute. right. left. reflexivity.
Defined.

(** Claim C3, against the skip-the-bad-line reading: a day file whose
    second record is the one-field line [garbage] loads as the empty list,
    although its first line alone parses to [demo]; and a nine-field row
    whose start time is not a date is not skipped but loaded as a record
    with an invalid start time. *)
Lemma C3_bad_line_counterexample :
  parse_content (CSV_HEADER ++ str1 nl ++ Sample.good_row) = Ok [Sample.demo] /\
  fst (loadSessionsFromFile Sample.partition
         (Sample.world_with Sample.file_with_bad_line 0)) = Ok [] /\
  (exists s l, fst (loadSessionsFromFile Sample.partition
                      (Sample.world_with Sample.file_with_bad_date 0)) = Ok l /\
               In s l /\ startTime s = InvalidDate).
Proof.
  split; [vm_compute; reflexivity|]. split; [vm_compute; reflexivity|].
  eexists; eexists. split; [vm_compute; reflexivity|].
  split; [right; left; reflexivity | reflexivity].
Qed.

(* ------------------------------------------------------------------ *)
(** ** Statements of the service, one at a time *)

Lemma bind_ok {A B} (m : M A) (k : A -> M B) (w w' : World) (a : A) :
  m w = (Ok a, w') -> bind m k w = k a w'.
Proof. intros H. unfold bind. now rewrite H. Qed.

Lemma bind_err {A B} (m : M A) (k : A -> M B) (w w' : World) (e : Exn) :
  m w = (Err e, w') -> bind m k w = (Err e, w').
Proof. intros H. unfold bind. now rewrite H. Qed.

Lemma catch_ok {A} (m : M A) (h : Exn -> M A) (w w' : World) (a : A) :
  m w = (Ok a, w') -> catch m h w = (Ok a, w').
Proof. intros H. unfold catch. now rewrite H. Qed.

Lemma catch_err {A} (m : M A) (h : Exn -> M A) (w w' : World) (e : Exn) :
  m w = (Err e, w') -> catch m h w = h e w'.
Proof. intros H. unfold catch. now rewrite H. Qed.

Lemma eqb_backup (p : string) : String.eqb (p ++ ".backup") p = false.
Proof.
  apply String.eqb_neq. intros H. apply (f_equal String.length) in H.
  rewrite slength_app in H. cbn in H. lia.
Qed.

Lemma upd_same (f : string -> option string) (p : string) (v : option string) :
  upd f p v p = v.
Proof. unfold upd. now rewrite String.eqb_refl. Qed.

Lemma upd_other (f : string -> option string) (p q : string) (v : option string) :
  String.eqb q p = false -> upd f p v q = f q.
Proof. unfold upd. now intros ->. Qed.

Lemma ensureFileExists_present (p c : string) (w : World) :
  files w p = Some c -> ensureFileExists p w = (Ok tt, w).
Proof.
  intros H. unfold ensureFileExists, bind, existsSync, ret. now rewrite H.
Qed.

(** The world after [saveSessionsToFile] rewrote an existing file [p]
    (old content [c]) with [out]: backup made, file written, backup
    removed. *)
Lemma saveSessionsToFile_ok (ss : list TimeSession) (p c out : string) (w : World) :
  files w p = Some c ->
  fails w (OpCopy p (p ++ ".backup")) = false ->
  fails w (OpWrite p) = false ->
  fails w (OpUnlink (p ++ ".backup")) = false ->
  render_content ss = Ok out ->
  saveSessionsToFile ss p w
  = (Ok tt,
     mkWorld (upd (upd (upd (files w) (p ++ ".backup") (Some c)) p (Some out))
                  (p ++ ".backup") None)
             (fails w) (now w) (baseDirectory w) (sessions w) (ui w)
             (((events w ++ [Copied p (p ++ ".backup")]) ++ [Wrote p out])
              ++ [Unlinked (p ++ ".backup")])).
Proof.
  intros Hc Hcp Hw Hu Hr. unfold saveSessionsToFile. apply catch_ok.
  erewrite bind_ok by (unfold lift; rewrite Hr; reflexivity).
  erewrite bind_ok by (unfold existsSync; reflexivity). rewrite Hc.
  erewrite bind_ok by (unfold copyFileSync; rewrite Hcp, Hc; reflexivity).
  erewrite bind_ok by (unfold writeFileSync; cbn [fails set_files push_event];
                       rewrite Hw; reflexivity).
  erewrite bind_ok by (unfold existsSync; reflexivity).
  cbn [files set_files push_event].
  rewrite upd_other, upd_same by apply eqb_backup.
  unfold unlinkSync. cbn [fails files set_files push_event].
  rewrite Hu, upd_other, upd_same by apply eqb_backup. reflexivity.
Qed.

(** The world after [saveSessionsToFile] over an existing file [p] whose
    write throws: an error message, the backup copied back over [p], an
    information message; the backup file stays. *)
Lemma saveSessionsToFile_write_fails (ss : list TimeSession) (p c out : string)
  (w : World) :
  files w p = Some c ->
  fails w (OpCopy p (p ++ ".backup")) = false ->
  fails w (OpWrite p) = true ->
  fails w (OpCopy (p ++ ".backup") p) = false ->
  render_content ss = Ok out ->
  saveSessionsToFile ss p w
  = (Ok tt,
     mkWorld (upd (upd (files w) (p ++ ".backup") (Some c)) p (Some c))
             (fails w) (now w) (baseDirectory w) (sessions w)
             ((ui w ++ [ErrorMsg "Failed to save sessions"])
              ++ [InfoMsg "Restored time tracking data from backup."])
             ((events w ++ [Copied p (p ++ ".backup")])
              ++ [Copied (p ++ ".backup") p])).
Proof.
  intros Hc Hcp Hw Hcb Hr. unfold saveSessionsToFile.
  erewrite catch_err.
  2:{ erewrite bind_ok by (unfold lift; rewrite Hr; reflexivity).
      erewrite bind_ok by (unfold existsSync; reflexivity). rewrite Hc.
      erewrite bind_ok by (unfold copyFileSync; rewrite Hcp, Hc; reflexivity).
      apply bind_err. unfold writeFileSync. cbn [fails set_files push_event].
      rewrite Hw. reflexivity. }
  erewrite bind_ok by (unfold showErrorMessage; reflexivity).
  erewrite bind_ok by (unfold existsSync; reflexivity).
  cbn [files set_files push_event push_ui]. rewrite upd_same.
  apply catch_ok.
  erewrite bind_ok.
  2:{ unfold copyFileSync. cbn [fails files set_files push_event push_ui].
      rewrite Hcb, upd_same. reflexivity. }
  reflexivity.
Qed.

(** [saveSession] on an existing, readable day file: it loads the file,
    applies [upsert], replaces the in-memory list when the session's date
    is today's, and hands the list to [saveSessionsToFile]. *)
Lemma saveSession_existing (s : TimeSession) (w w1 : World) (t : Z)
  (p c : string) (l : list TimeSession) :
  startTime s = DateOf t ->
  getFilePathForDay (baseDirectory w) (DateOf t) = Ok p ->
  files w p = Some c -> fails w (OpRead p) = false ->
  parse_content c = Ok l ->
  saveSessionsToFile (upsert l s) p
    (if String.eqb (iso_date_part (utc_date t)) (iso_date_part (utc_date (now w)))
     then set_sessions w (upsert l s) else w) = (Ok tt, w1) ->
  saveSession s w = (Ok tt, w1).
Proof.
  intros Hst Hp Hc Hf Hl Hs. unfold saveSession. apply catch_ok.
  rewrite Hst.
  erewrite bind_ok by (unfold getFilePathForDay_m; rewrite Hp; reflexivity).
  erewrite bind_ok by (apply (ensureFileExists_present p c w Hc)).
  erewrite bind_ok by (rewrite (load_readable p c w Hc Hf), Hl; reflexivity).
  erewrite bind_ok by (unfold lift; rewrite formatDateToString_DateOf; reflexivity).
  erewrite bind_ok by (unfold get_now; reflexivity).
  erewrite bind_ok by (unfold lift; rewrite formatDateToString_DateOf; reflexivity).
  destruct (String.eqb (iso_date_part (utc_date t)) (iso_date_part (utc_date (now w)))).
  - erewrite bind_ok by (unfold put_sessions; reflexivity). exact Hs.
  - erewrite bind_ok by (unfold ret; reflexivity). exact Hs.
Qed.

(* ------------------------------------------------------------------ *)
(** ** Saving one session *)

(** [saveSession] on an existing, readable day file whose rewrite goes
    through. *)
Lemma saveSession_written (s : TimeSession) (w : World) (t : Z)
  (p c out : string) (l : list TimeSession) :
  startTime s = DateOf t ->
  getFilePathForDay (baseDirectory w) (DateOf t) = Ok p ->
  files w p = Some c -> fails w (OpRead p) = false ->
  fails w (OpCopy p (p ++ ".backup")) = false -> fails w (OpWrite p) = false ->
  fails w (OpUnlink (p ++ ".backup")) = false ->
  parse_content c = Ok l -> render_content (upsert l s) = Ok out ->
  exists w1, saveSession s w = (Ok tt, w1) /\
    files w1 p = Some out /\ files w1 (p ++ ".backup") = None /\
    events w1 = (events w ++ [Copied p (p ++ ".backup"); Wrote p out;
                              Unlinked (p ++ ".backup")])%list /\
    ui w1 = ui w /\
    sessions w1 = (if String.eqb (iso_date_part (utc_date t))
                                 (iso_date_part (utc_date (now w)))
                   then upsert l s else sessions w).
Proof.
  intros Hst Hp Hc Hf Hcp Hw Hu Hl Hr.
  set (b := String.eqb (iso_date_part (utc_date t)) (iso_date_part (utc_date (now w)))).
  set (w0 := if b then set_sessions w (upsert l s) else w).
  assert (E : files w0 = files w /\ fails w0 = fails w /\ events w0 = events w /\
              ui w0 = ui w /\ sessions w0 = (if b then upsert l s else sessions w))
    by (unfold w0; destruct b; repeat split).
  destruct E as (E1 & E2 & E3 & E4 & E5).
  assert (Hsave := saveSessionsToFile_ok (upsert l s) p c out w0).
  rewrite E1, E2 in Hsave. specialize (Hsave Hc Hcp Hw Hu Hr).
  eexists. split; [exact (saveSession_existing s w _ t p c l Hst Hp Hc Hf Hl Hsave)|].
  cbn [files events ui sessions]. rewrite E3, E4, E5.
  rewrite upd_same, upd_other, upd_same
    by (rewrite String.eqb_sym; apply eqb_backup).
  repeat split. now rewrite <- !app_assoc.
Qed.

(** Claim C4, as the code behaves: [saveSession] resolves the day file
    from the UTC date of the start time, loads it, replaces the first
    record with the same id or else appends the session at the end of the
    list, and then always rewrites the whole file through
    [saveSessionsToFile] (backup copy, one [writeFileSync] of the full
    content, backup removed): there is no append-only path. *)
Theorem C4_save_rewrites_whole_day (s : TimeSession) (w : World) (t : Z)
  (p c out : string) (l : list TimeSession) :
  startTime s = DateOf t ->
  getFilePathForDay (baseDirectory w) (DateOf t) = Ok p ->
  files w p = Some c -> fails w (OpRead p) = false ->
  fails w (OpCopy p (p ++ ".backup")) = false -> fails w (OpWrite p) = false ->
  fails w (OpUnlink (p ++ ".backup")) = false ->
  parse_content c = Ok l -> render_content (upsert l s) = Ok out ->
  exists w1, saveSession s w = (Ok tt, w1) /\
    files w1 p = Some out /\ files w1 (p ++ ".backup") = None /\
    events w1 = (events w ++ [Copied p (p ++ ".backup"); Wrote p out;
                              Unlinked (p ++ ".backup")])%list /\
    upsert l s = match findIndex (id s) l with
                 | Some k => replace_nth l k s
                 | None => (l ++ [s])%list
                 end.
Proof.
  intros Hst Hp Hc Hf Hcp Hw Hu Hl Hr.
  destruct (saveSession_written s w t p c out l Hst Hp Hc Hf Hcp Hw Hu Hl Hr)
    as (w1 & H1 & H2 & H3 & H4 & _).
  exists w1. repeat split; assumption.
Qed.

Lemma C4_save_rewrites_whole_day_witness :
  exists w1, saveSession Sample.new_session (Sample.world_with Sample.day_file 0)
             = (Ok tt, w1) /\
    files w1 Sample.partition = Some (Sample.rendered [Sample.demo; Sample.new_session]) /\
    files w1 (Sample.partition ++ ".backup") = None /\
    events w1 = [Copied Sample.partition (Sample.partition ++ ".backup");
                 Wrote Sample.partition (Sample.rendered [Sample.demo; Sample.new_session]);
                 Unlinked (Sample.partition ++ ".backup")] /\
    upsert [Sample.demo] Sample.new_session
    = match findIndex (id Sample.new_session) [Sample.demo] with
      | Some k => replace_nth [Sample.demo] k Sample.new_session
      | None => ([Sample.demo] ++ [Sample.new_session])%list
      end.
Proof.
  apply (C4_save_rewrites_whole_day Sample.new_session
           (Sample.world_with Sample.day_file 0) Sample.t_start Sample.partition
           Sample.day_file (Sample.rendered [Sample.demo; Sample.new_session])
           [Sample.demo]);
    vm_compute; reflexivity.
Defined.

(** Claim C4, against the append fast path: saving a session with a new
    id into a day file that already holds [demo] appends nothing; the
    only write is one [writeFileSync] of the whole day, old row included. *)
Lemma C4_no_append_counterexample :
  findIndex (id Sample.new_session) [Sample.demo] = None /\
  events (snd (saveSession Sample.new_session (Sample.world_with Sample.day_file 0)))
  = [Copied Sample.partition (Sample.partition ++ ".backup");
     Wrote Sample.partition (Sample.rendered [Sample.demo; Sample.new_session]);
     Unlinked (Sample.partition ++ ".backup")] /\
  render_content [Sample.demo; Sample.new_session]
  = Ok (Sample.rendered [Sample.demo; Sample.new_session]).
Proof. split; [|split]; vm_compute; reflexivity. Qed.

(** Claim C6, as the code behaves, for a day file [p] that exists: the
    backup [p.backup] is made before the write; after a successful write
    the backup is removed; when the write throws, [saveSessionsToFile]
    shows an error, copies the backup back over [p], shows an information
    message, leaves the backup file in place and returns normally, so
    [saveSession] returns normally too.  The in-memory list is the same in
    both cases: it has already been replaced by the new day list when the
    session's date is today's. *)
Theorem C6_write_failure_keeps_new_sessions (s : TimeSession) (w : World) (t : Z)
  (p c out : string) (l : list TimeSession) :
  startTime s = DateOf t ->
  getFilePathForDay (baseDirectory w) (DateOf t) = Ok p ->
  files w p = Some c -> fails w (OpRead p) = false ->
  fails w (OpCopy p (p ++ ".backup")) = false ->
  fails w (OpUnlink (p ++ ".backup")) = false ->
  fails w (OpCopy (p ++ ".backup") p) = false ->
  parse_content c = Ok l -> render_content (upsert l s) = Ok out ->
  let today := String.eqb (iso_date_part (utc_date t)) (iso_date_part (utc_date (now w))) in
  let mem := if today then upsert l s else sessions w in
  (fails w (OpWrite p) = false ->
   exists w1, saveSession s w = (Ok tt, w1) /\
     files w1 p = Some out /\ files w1 (p ++ ".backup") = None /\
     events w1 = (events w ++ [Copied p (p ++ ".backup"); Wrote p out;
                               Unlinked (p ++ ".backup")])%list /\
     ui w1 = ui w /\ sessions w1 = mem) /\
  (fails w (OpWrite p) = true ->
   exists w1, saveSession s w = (Ok tt, w1) /\
     files w1 p = Some c /\ files w1 (p ++ ".backup") = Some c /\
     events w1 = (events w ++ [Copied p (p ++ ".backup");
                               Copied (p ++ ".backup") p])%list /\
     ui w1 = (ui w ++ [ErrorMsg "Failed to save sessions";
                       InfoMsg "Restored time tracking data from backup."])%list /\
     sessions w1 = mem).
Proof.
  intros Hst Hp Hc Hf Hcp Hu Hcb Hl Hr today mem.
  set (w0 := if today then set_sessions w (upsert l s) else w).
  assert (E : files w0 = files w /\ fails w0 = fails w /\ events w0 = events w /\
              ui w0 = ui w /\ sessions w0 = mem)
    by (unfold w0, mem; destruct today; repeat split).
  destruct E as (E1 & E2 & E3 & E4 & E5).
  split; intros Hw.
  - exact (saveSession_written s w t p c out l Hst Hp Hc Hf Hcp Hw Hu Hl Hr).
  - assert (Hsave := saveSessionsToFile_write_fails (upsert l s) p c out w0).
    rewrite E1, E2 in Hsave. specialize (Hsave Hc Hcp Hw Hcb Hr).
    eexists. split; [exact (saveSession_existing s w _ t p c l Hst Hp Hc Hf Hl Hsave)|].
    cbn [files events ui sessions]. rewrite E3, E4, E5.
    rewrite upd_same, upd_other, upd_same by apply eqb_backup.
    repeat split; now rewrite <- !app_assoc.
Qed.

Lemma C6_write_failure_keeps_new_sessions_witness :
  exists w1,
    saveSession Sample.new_session
      (Sample.failing_write_world Sample.day_file Sample.t_start) = (Ok tt, w1) /\
    files w1 Sample.partition = Some Sample.day_file /\
    files w1 (Sample.partition ++ ".backup") = Some Sample.day_file /\
    events w1 = [Copied Sample.partition (Sample.partition ++ ".backup");
                 Copied (Sample.partition ++ ".backup") Sample.partition] /\
    ui w1 = [ErrorMsg "Failed to save sessions";
             InfoMsg "Restored time tracking data from backup."] /\
    sessions w1 = [Sample.demo; Sample.new_session].
Proof.
  destruct (proj2 (C6_write_failure_keeps_new_sessions Sample.new_session
                     (Sample.failing_write_world Sample.day_file Sample.t_start)
                     Sample.t_start Sample.partition Sample.day_file
                     (Sample.rendered [Sample.demo; Sample.new_session]) [Sample.demo]
                     ltac:(reflexivity) ltac:(vm_compute; reflexivity)
                     ltac:(vm_compute; reflexivity) ltac:(vm_compute; reflexivity)
                     ltac:(vm_compute; reflexivity) ltac:(vm_compute; reflexivity)
                     ltac:(vm_compute; reflexivity) ltac:(vm_compute; reflexivity)
                     ltac:(vm_compute; reflexivity))
                  ltac:(vm_compute; reflexivity))
    as (w1 & H1 & H2 & H3 & H4 & H5 & H6).
  exists w1. rewrite H4, H5, H6. repeat split; try assumption; vm_compute; reflexivity.
Defined.

(** Claim C6, against the unchanged-memory reading: saving [new_session]
    on its own day while every write of the day file throws leaves the
    file as it was, but the in-memory list, empty before, now holds the
    day list with the unsaved session. *)
Lemma C6_memory_changed_counterexample :
  sessions (Sample.failing_write_world Sample.day_file Sample.t_start) = [] /\
  files (snd (saveSession Sample.new_session
                (Sample.failing_write_world Sample.day_file Sample.t_start)))
        Sample.partition = Some Sample.day_file /\
  sessions (snd (saveSession Sample.new_session
                   (Sample.failing_write_world Sample.day_file Sample.t_start)))
  = [Sample.demo; Sample.new_session].
Proof. split; [|split]; vm_compute; reflexivity. Qed.

(* ------------------------------------------------------------------ *)
(** ** Records with the same id *)

Lemma count_id_app (i : string) (l1 l2 : list TimeSession) :
  count_id i (l1 ++ l2) = (count_id i l1 + count_id i l2)%nat.
Proof. unfold count_id. now rewrite filter_app, length_app. Qed.

Lemma count_id_cons (i : string) (r : TimeSession) (l : list TimeSession) :
  count_id i (r :: l) = ((if String.eqb (id r) i then 1 else 0) + count_id i l)%nat.
Proof. unfold count_id. cbn [filter]. destruct (String.eqb (id r) i); reflexivity. Qed.

Lemma findIndex_none_count (i : string) (l : list TimeSession) :
  findIndex i l = None -> count_id i l = O.
Proof.
  induction l as [|r l IH]; [reflexivity|]. cbn [findIndex]. rewrite count_id_cons.
  destruct (String.eqb (id r) i); [discriminate|].
  destruct (findIndex i l); [discriminate|]. intros _. now rewrite IH.
Qed.

Lemma findIndex_some_count (i : string) (l : list TimeSession) (k : nat)
  (s : TimeSession) :
  findIndex i l = Some k -> id s = i ->
  count_id i (replace_nth l k s) = count_id i l /\ (1 <= count_id i l)%nat.
Proof.
  intros Hk Hs. revert k Hk. induction l as [|r l IH]; intros k Hk; [discriminate|].
  cbn [findIndex] in Hk. rewrite count_id_cons.
  destruct (String.eqb (id r) i) eqn:E.
  - injection Hk as <-. cbn [replace_nth]. rewrite count_id_cons, Hs, String.eqb_refl.
    split; [reflexivity | lia].
  - destruct (findIndex i l) as [k'|]; [|discriminate].
    injection Hk as <-. cbn [replace_nth]. rewrite count_id_cons, E.
    destruct (IH k' eq_refl) as [H1 H2]. split; [now rewrite H1 | lia].
Qed.

Lemma upsert_count (l : list TimeSession) (s : TimeSession) :
  count_id (id s) (upsert l s) = Nat.max 1 (count_id (id s) l).
Proof.
  unfold upsert. destruct (findIndex (id s) l) as [k|] eqn:E.
  - destruct (findIndex_some_count (id s) l k s E eq_refl) as [H1 H2].
    rewrite H1. lia.
  - rewrite count_id_app, (findIndex_none_count _ _ E), count_id_cons,
      String.eqb_refl. reflexivity.
Qed.

(** Claim C7, as the code behaves: when the rewrite of the day file goes
    through, the list written is [upsert] of the loaded records, in which
    the number of records with the saved id is the larger of 1 and the
    number loaded.  It is exactly 1 when the loaded day held that id at
    most once; [upsert] replaces only the first of several. *)
Theorem C7_save_keeps_id_count (s : TimeSession) (w : World) (t : Z)
  (p c out : string) (l : list TimeSession) :
  startTime s = DateOf t ->
  getFilePathForDay (baseDirectory w) (DateOf t) = Ok p ->
  files w p = Some c -> fails w (OpRead p) = false ->
  fails w (OpCopy p (p ++ ".backup")) = false -> fails w (OpWrite p) = false ->
  fails w (OpUnlink (p ++ ".backup")) = false ->
  parse_content c = Ok l -> render_content (upsert l s) = Ok out ->
  exists w1, saveSession s w = (Ok tt, w1) /\ files w1 p = Some out /\
    count_id (id s) (upsert l s) = Nat.max 1 (count_id (id s) l) /\
    ((count_id (id s) l <= 1)%nat -> count_id (id s) (upsert l s) = 1%nat).
Proof.
  intros Hst Hp Hc Hf Hcp Hw Hu Hl Hr.
  destruct (saveSession_written s w t p c out l Hst Hp Hc Hf Hcp Hw Hu Hl Hr)
    as (w1 & H1 & H2 & _).
  exists w1. rewrite upsert_count. repeat split; try assumption. lia.
Qed.

Lemma C7_save_keeps_id_count_witness :
  exists w1,
    saveSession Sample.renamed (Sample.world_with Sample.day_file 0) = (Ok tt, w1) /\
    files w1 Sample.partition = Some (Sample.rendered [Sample.renamed]) /\
    count_id "1" (upsert [Sample.demo] Sample.renamed) = Nat.max 1 (count_id "1" [Sample.demo]) /\
    ((count_id "1" [Sample.demo] <= 1)%nat -> count_id "1" (upsert [Sample.demo] Sample.renamed) = 1%nat).
Proof.
  exact (C7_save_keeps_id_count Sample.renamed (Sample.world_with Sample.day_file 0)
           Sample.t_start Sample.partition Sample.day_file
           (Sample.rendered [Sample.renamed]) [Sample.demo]
           ltac:(reflexivity) ltac:(vm_compute; reflexivity)
           ltac:(vm_compute; reflexivity) ltac:(vm_compute; reflexivity)
           ltac:(vm_compute; reflexivity) ltac:(vm_compute; reflexivity)
           ltac:(vm_compute; reflexivity) ltac:(vm_compute; reflexivity)
           ltac:(vm_compute; reflexivity)).
Defined.

(** Claim C7, against the exactly-one reading: in a day file that holds
    the row of [demo] twice, saving [renamed] (same id) replaces the first
    row only, and the file written holds two records with id 1. *)
Lemma C7_duplicate_counterexample :
  count_id "1" [Sample.demo; Sample.demo] = 2%nat /\
  upsert [Sample.demo; Sample.demo] Sample.renamed = [Sample.renamed; Sample.demo] /\
  files (snd (saveSession Sample.renamed (Sample.world_with Sample.dup_file 0)))
        Sample.partition = Some (Sample.rendered [Sample.renamed; Sample.demo]) /\
  count_id "1" [Sample.renamed; Sample.demo] = 2%nat.
Proof. split; [|split; [|split]]; vm_compute; reflexivity. Qed.

(* ------------------------------------------------------------------ *)
(** ** The tracking state machine *)

Module TrackerFacts.
Import Tracker.

Lemma ecs_sessions (c : Z) (st : Tracker) :
  t_sessions (endCurrentSession c st)
  = (t_sessions st ++ match currentSession st with
                      | Some cur => [with_end cur c]
                      | None => []
                      end)%list.
Proof.
  unfold endCurrentSession. destruct (currentSession st); cbn;
    [destruct (dbService st); reflexivity | now rewrite app_nil_r].
Qed.

Lemma ecs_current (c : Z) (st : Tracker) : currentSession (endCurrentSession c st) = None.
Proof.
  unfold endCurrentSession. destruct (currentSession st) eqn:E;
    [destruct (dbService st); reflexivity | exact E].
Qed.

Lemma with_end_closed (cur : TimeSession) (t c : Z) :
  startTime cur = DateOf t -> t <= c -> closed_ok (with_end cur c).
Proof. intros H Hc. exists t, c. cbn. now rewrite H. Qed.

Lemma clock_from_cons (lo : Z) (ev : Event) (r : list Event) :
  clock_from lo (ev :: r) ->
  clock_from lo [ev] /\ lo <= ev_clock lo ev /\ clock_from (ev_clock lo ev) r.
Proof.
  destruct ev; cbn; intros H; repeat match goal with H : _ /\ _ |- _ => destruct H end;
    repeat split; first [lia | assumption].
Qed.

Lemma in_app_one {A} (x y : A) (l : list A) : In x (l ++ [y]) -> In x l \/ x = y.
Proof. intros H. apply in_app_or in H as [H|[H|[]]]; auto. Qed.

Lemma step_all_closed (ev : Event) (st : Tracker) :
  all_closed st -> all_closed (step ev st).
Proof.
  unfold all_closed. intros H.
  assert (Hecs : forall c st', all_closed st' -> all_closed (endCurrentSession c st')).
  { unfold all_closed. intros c st' H' s Hs. rewrite ecs_sessions in Hs.
    destruct (currentSession st') as [cur|].
    - apply in_app_one in Hs as [Hs| ->]; [exact (H' s Hs) | discriminate].
    - rewrite app_nil_r in Hs. exact (H' s Hs). }
  assert (Hst : forall e c i t st', all_closed st' -> all_closed (startTracking e c i t st')).
  { intros [e|] c i t st' H'; unfold startTracking; cbn [t_sessions].
    - exact (Hecs c st' H').
    - exact H'. }
  destruct ev as [e c i t|c|[e|] c i t|c|c|n]; cbn [step]; try exact H.
  - exact (Hst e c i t st H).
  - exact (Hecs c st H).
  - unfold handleEditorChange.
    destruct (isTracking st && _); [exact (Hst _ _ _ _ _ (Hecs _ _ H)) | exact H].
Qed.

Lemma step_started (lo : Z) (ev : Event) (st : Tracker) :
  clock_from lo [ev] -> started_by lo st ->
  started_by (ev_clock lo ev) (step ev st) /\
  (forall s, In s (t_sessions (step ev st)) -> In s (t_sessions st) \/ closed_ok s).
Proof.
  intros Hlo H.
  assert (Hlater : forall hi st', lo <= hi -> started_by lo st' -> started_by hi st').
  { intros hi st' Hh H' cur Hcur. destruct (H' cur Hcur) as (t & Ht & Htl).
    exists t. split; [exact Ht | lia]. }
  assert (Hecs : forall c st', lo <= c -> started_by lo st' ->
            started_by c (endCurrentSession c st') /\
            (forall s, In s (t_sessions (endCurrentSession c st')) ->
                       In s (t_sessions st') \/ closed_ok s)).
  { intros c st' Hc H'. split; [intros cur; now rewrite ecs_current|].
    intros s Hs. rewrite ecs_sessions in Hs.
    destruct (currentSession st') as [cur|] eqn:E.
    - apply in_app_one in Hs as [Hs| ->]; [now left|right].
      destruct (H' cur E) as (t & Ht & Htl).
      apply (with_end_closed cur t c Ht). lia.
    - rewrite app_nil_r in Hs. now left. }
  assert (Hst : forall e c i t st', lo <= c -> c <= t -> started_by lo st' ->
            started_by t (startTracking e c i t st') /\
            (forall s, In s (t_sessions (startTracking e c i t st')) ->
                       In s (t_sessions st') \/ closed_ok s)).
  { intros [e|] c i t st' Hc Ht H'; unfold startTracking; cbn [t_sessions currentSession].
    - destruct (Hecs c st' Hc H') as [_ H2]. split; [|exact H2].
      intros cur Hcur. injection Hcur as <-. exists t. cbn. split; [reflexivity | lia].
    - split; [|now left]. apply (Hlater t st'); [lia | exact H']. }
  assert (Hmap : forall f, (forall s, startTime (f s) = startTime s) ->
            started_by lo (map_current f st) /\
            (forall s, In s (t_sessions (map_current f st)) ->
                       In s (t_sessions st) \/ closed_ok s)).
  { intros f Hf. split; [|now left]. intros cur Hcur. unfold map_current in Hcur.
    cbn [currentSession] in Hcur.
    destruct (currentSession st) as [cur0|] eqn:E; [|discriminate].
    injection Hcur as <-. rewrite Hf. exact (H cur0 E). }
  destruct ev as [e c i t|c|e c i t|c|c|n]; cbn [step ev_clock clock_from] in *.
  - exact (Hst e c i t st ltac:(lia) ltac:(lia) H).
  - exact (Hecs c st ltac:(lia) H).
  - unfold handleEditorChange. destruct e as [e|].
    + destruct (isTracking st && _).
      * destruct (Hecs c st ltac:(lia) H) as [H1 H2].
        assert (H0 : started_by lo (endCurrentSession c st))
          by (intros cur Hc; rewrite ecs_current in Hc; discriminate).
        destruct (Hst (Some e) c i t _ ltac:(lia) ltac:(lia) H0) as [H3 H4].
        split; [exact H3|]. intros s Hs.
        destruct (H4 s Hs) as [Hs'|]; [exact (H2 s Hs') | now right].
      * split; [|now left]. apply (Hlater t st); [lia | exact H].
    + split; [|now left]. apply (Hlater t st); [lia | exact H].
  - destruct (Hmap (set_duration c) (fun _ => eq_refl)) as [H1 H2].
    split; [|exact H2]. apply (Hlater c); [lia | exact H1].
  - exact (Hmap (set_category c) (fun _ => eq_refl)).
  - exact (Hmap (set_notes n) (fun _ => eq_refl)).
Qed.

End TrackerFacts.

Lemma filter_open_nil (l : list TimeSession) :
  (forall s, In s l -> endTime s <> None) ->
  filter (fun s => match endTime s with None => true | _ => false end) l = [].
Proof.
  induction l as [|a l IH]; intros H; [reflexivity|]. cbn.
  destruct (endTime a) eqn:E.
  - apply IH. intros s Hs. apply H. now right.
  - exfalso. apply (H a); [now left | exact E].
Qed.

Lemma run_all_closed (st : Tracker.Tracker) (tr : list Tracker.Event) :
  Tracker.all_closed st -> Tracker.all_closed (Tracker.run st tr).
Proof.
  revert st. induction tr as [|ev tr IH]; intros st H; [exact H|].
  cbn [Tracker.run]. apply IH, TrackerFacts.step_all_closed, H.
Qed.

Lemma run_started (lo : Z) (st : Tracker.Tracker) (tr : list Tracker.Event) :
  Tracker.started_by lo st -> Tracker.clock_from lo tr ->
  forall s, In s (Tracker.t_sessions (Tracker.run st tr)) ->
            In s (Tracker.t_sessions st) \/ Tracker.closed_ok s.
Proof.
  revert lo st. induction tr as [|ev tr IH]; intros lo st H Hc s Hs; [now left|].
  cbn [Tracker.run] in Hs.
  destruct (TrackerFacts.clock_from_cons lo ev tr Hc) as [Hev [Hlo Hr]].
  destruct (TrackerFacts.step_started lo ev st Hev H) as [H1 H2].
  destruct (IH _ _ H1 Hr s Hs) as [Hs'|Hok]; [exact (H2 s Hs') | now right].
Qed.

(** Claim C5, as the code behaves.  (1) Starting from an in-memory list
    of closed sessions, after any sequence of events at most one session
    is open: the current one.  (2) When the clock readings never run
    backwards from a bound [lo] that the current session started by, every
    session added to the list is closed with [endTime >= startTime].
    (3) [startTracking] with an active editor while a session is open
    first closes that session at the reading of [endCurrentSession] and
    appends it, then opens a fresh session at its own later reading of
    [new Date()], so the old end is not after the new start.
    (4) [startTracking] with no active editor only shows a warning: an
    open session stays open and the list is unchanged. *)
Theorem C5_tracker_rotation (st : Tracker.Tracker) (lo : Z) :
  Tracker.all_closed st ->
  (forall tr, (Tracker.open_count (Tracker.run st tr) <= 1)%nat) /\
  (forall tr, Tracker.started_by lo st -> Tracker.clock_from lo tr ->
     forall s, In s (Tracker.t_sessions (Tracker.run st tr)) ->
               In s (Tracker.t_sessions st) \/ Tracker.closed_ok s) /\
  (forall e c i t cur t0, Tracker.currentSession st = Some cur ->
     startTime cur = DateOf t0 -> t0 <= c -> c <= t ->
     let st' := Tracker.step (Tracker.StartTracking (Some e) c i t) st in
     Tracker.t_sessions st' = (Tracker.t_sessions st ++ [Tracker.with_end cur c])%list /\
     Tracker.closed_ok (Tracker.with_end cur c) /\
     exists fresh, Tracker.currentSession st' = Some fresh /\ endTime fresh = None /\
       exists e0 s0, endTime (Tracker.with_end cur c) = Some (DateOf e0) /\
                     startTime fresh = DateOf s0 /\ e0 <= s0) /\
  (forall c i t,
     let st' := Tracker.step (Tracker.StartTracking None c i t) st in
     Tracker.currentSession st' = Tracker.currentSession st /\
     Tracker.t_sessions st' = Tracker.t_sessions st /\
     Tracker.t_ui st'
     = (Tracker.t_ui st ++ [WarnMsg "No active editor to track time for."])%list).
Proof.
  intros Hc. split; [|split; [|split]].
  - intros tr. unfold Tracker.open_count.
    rewrite (filter_open_nil _ (run_all_closed st tr Hc)). cbn [List.length].
    destruct (Tracker.currentSession (Tracker.run st tr)); lia.
  - intros tr. apply run_started.
  - intros e c i t cur t0 Hcur Ht Hle Hct st'. unfold st'. cbn [Tracker.step].
    unfold Tracker.startTracking. cbn [Tracker.t_sessions Tracker.currentSession].
    rewrite TrackerFacts.ecs_sessions, Hcur. split; [reflexivity|].
    split; [exact (TrackerFacts.with_end_closed cur t0 c Ht Hle)|].
    eexists. split; [reflexivity|]. split; [reflexivity|].
    exists c, t. split; [reflexivity|]. split; [reflexivity | exact Hct].
  - intros c i t st'. unfold st'. repeat split.
Qed.

Lemma C5_tracker_rotation_witness :
  Tracker.all_closed (Tracker.run Tracker.empty
                        [Tracker.StartTracking (Some Tracker.demo_editor) 1000 1000 1001]) /\
  (Tracker.open_count
     (Tracker.run (Tracker.run Tracker.empty
                     [Tracker.StartTracking (Some Tracker.demo_editor) 1000 1000 1001])
        [Tracker.HandleEditorChange (Some Tracker.other_editor) 5000 5003 5004;
         Tracker.StartTracking None 6000 6000 6000; Tracker.Tick 7000]) <= 1)%nat.
Proof.
  assert (H : Tracker.all_closed (Tracker.run Tracker.empty
                [Tracker.StartTracking (Some Tracker.demo_editor) 1000 1000 1001])).
  { intros s Hs. vm_compute in Hs. destruct Hs. }
  split; [exact H|].
  exact (proj1 (C5_tracker_rotation _ 1000 H) _).
Defined.

(** Claim C5, against the always-rotate reading: after tracking starts on
    [demo_editor] at 1000, a call of [startTracking] at 2000 with no
    active editor does not close the open session: it is still current,
    still has no [endTime], and nothing was added to the list. *)
Lemma C5_no_editor_counterexample :
  let st := Tracker.run Tracker.empty
              [Tracker.StartTracking (Some Tracker.demo_editor) 1000 1000 1000] in
  let st' := Tracker.step (Tracker.StartTracking None 2000 2000 2000) st in
  Tracker.isTracking st = true /\
  Tracker.currentSession st' = Tracker.currentSession st /\
  option_map endTime (Tracker.currentSession st') = Some None /\
  Tracker.t_sessions st' = [].
Proof. repeat split; vm_compute; reflexivity. Qed.

(* ------------------------------------------------------------------ *)
(** ** The idle detector *)

Lemma idle_step_shape (ev : Idle.Event) (d : Idle.Detector) :
  Idle.hasOnUserReturned d = true ->
  Idle.hasOnUserReturned (fst (Idle.step ev d)) = true /\
  ((snd (Idle.step ev d) = [] /\
    Idle.idleDetected (fst (Idle.step ev d)) = Idle.idleDetected d) \/
   (snd (Idle.step ev d) = [Idle.IdleDetected] /\ Idle.idleDetected d = false /\
    Idle.idleDetected (fst (Idle.step ev d)) = true) \/
   (snd (Idle.step ev d) = [Idle.UserReturned] /\ Idle.idleDetected d = true /\
    Idle.idleDetected (fst (Idle.step ev d)) = false)).
Proof.
  intros H. destruct d as [la th idle has]; cbn in H; subst has.
  destruct ev as [c|c|[v|]]; cbn [Idle.step].
  - unfold Idle.recordActivity. cbn. destruct idle; cbn; auto 6.
  - unfold Idle.checkIdleState. cbn.
    destruct (th <? c - la), idle; cbn; auto 7.
  - cbn. auto.
  - cbn. auto.
Qed.

Lemma idle_run_alternating (tr : list Idle.Event) (d : Idle.Detector) :
  Idle.hasOnUserReturned d = true ->
  Idle.alternating (Idle.idleDetected d) (snd (Idle.run d tr)).
Proof.
  revert d. induction tr as [|ev tr IH]; intros d H; [exact I|].
  cbn [Idle.run].
  destruct (idle_step_shape ev d H) as [Hh Hs].
  destruct (Idle.step ev d) as [d1 o1]. cbn [fst snd] in Hh, Hs.
  specialize (IH d1 Hh). destruct (Idle.run d1 tr) as [d2 o2]. cbn [snd] in IH |- *.
  destruct Hs as [(-> & Hi)|[(-> & Hi0 & Hi1)|(-> & Hi0 & Hi1)]]; cbn.
  - now rewrite <- Hi.
  - split; [exact Hi0 | now rewrite <- Hi1].
  - split; [exact Hi0 | now rewrite <- Hi1].
Qed.

(** Claim C8: with the [onUserReturned] callback given (as the extension
    does), a periodic check that finds the inactivity above the threshold
    while not idle sets the idle flag and fires [IdleDetected]; while
    idle, a check changes nothing and fires nothing; [recordActivity]
    while idle clears the flag and fires [UserReturned] once, and while
    not idle fires nothing.  Over any sequence of events the
    notifications alternate, starting with [IdleDetected] from the
    not-idle state: one of each per idle episode. *)
Theorem C8_idle_once_per_episode (d : Idle.Detector) :
  Idle.hasOnUserReturned d = true ->
  (forall c, Idle.idleThreshold d < c - Idle.lastActivity d ->
     Idle.idleDetected d = false ->
     Idle.checkIdleState c d
     = (Idle.mkDetector (Idle.lastActivity d) (Idle.idleThreshold d) true true,
        [Idle.IdleDetected])) /\
  (forall c, Idle.idleDetected d = true -> Idle.checkIdleState c d = (d, [])) /\
  (forall c, Idle.idleDetected d = true ->
     Idle.recordActivity c d
     = (Idle.mkDetector c (Idle.idleThreshold d) false true, [Idle.UserReturned])) /\
  (forall c, Idle.idleDetected d = false ->
     snd (Idle.recordActivity c d) = [] /\
     Idle.idleDetected (fst (Idle.recordActivity c d)) = false /\
     Idle.lastActivity (fst (Idle.recordActivity c d)) = c) /\
  (forall tr, Idle.alternating (Idle.idleDetected d) (snd (Idle.run d tr))).
Proof.
  intros H. split; [|split; [|split; [|split]]].
  - intros c Hc Hi. unfold Idle.checkIdleState.
    apply Z.ltb_lt in Hc. rewrite Hc, Hi, H. reflexivity.
  - intros c Hi. unfold Idle.checkIdleState. rewrite Hi, andb_false_r. reflexivity.
  - intros c Hi. unfold Idle.recordActivity. rewrite Hi, H. reflexivity.
  - intros c Hi. unfold Idle.recordActivity. rewrite Hi. cbn. auto.
  - intros tr. exact (idle_run_alternating tr d H).
Qed.

Lemma C8_idle_once_per_episode_witness :
  Idle.hasOnUserReturned (Idle.mkDetector 0 300000 false true) = true /\
  Idle.alternating false
    (snd (Idle.run (Idle.mkDetector 0 300000 false true)
            [Idle.CheckIdleState 400000; Idle.CheckIdleState 460000;
             Idle.RecordActivity 500000; Idle.CheckIdleState 900000])).
Proof.
  split; [reflexivity|].
  exact (proj2 (proj2 (proj2 (proj2
           (C8_idle_once_per_episode (Idle.mkDetector 0 300000 false true) eq_refl))))
           _).
Defined.

(* ------------------------------------------------------------------ *)
(** ** Migration from the single file *)

Lemma eqb_bak (p : string) : String.eqb p (p ++ ".bak") = false.
Proof.
  apply String.eqb_neq. intros H. apply (f_equal String.length) in H.
  rewrite slength_app in H. cbn in H. lia.
Qed.

(** Claim C9, as the code behaves: without the old file the migration
    returns false and changes nothing.  With it, the migration loads it,
    groups its records by date, writes each group over its day file,
    copies the old file to [old.bak] and returns true.  The old file is
    kept as it was and no mark of a finished migration is stored, so a
    second call finds the same old file and writes the same groups again
    over the day files. *)
Theorem C9_migrate_repeats (old c : string) (w w1 : World) (l : list TimeSession)
  (gs : list (string * list TimeSession)) :
  (files w old = None -> migrateFromSingleFile old w = (Ok false, w)) /\
  (files w old = Some c -> fails w (OpRead old) = false -> parse_content c = Ok l ->
   group_by_day l [] = Ok gs -> save_groups gs w = (Ok tt, w1) ->
   files w1 old = Some c -> fails w1 (OpCopy old (old ++ ".bak")) = false ->
   exists w2, migrateFromSingleFile old w = (Ok true, w2) /\
     files w2 old = files w old /\ files w2 (old ++ ".bak") = Some c /\
     (forall q, String.eqb q (old ++ ".bak") = false -> files w2 q = files w1 q)).
Proof.
  split.
  - intros H. unfold migrateFromSingleFile, bind, existsSync, ret. now rewrite H.
  - intros Hc Hf Hl Hg Hs Hc1 Hcp. unfold migrateFromSingleFile.
    erewrite bind_ok by (unfold existsSync; reflexivity). rewrite Hc. cbn [negb].
    eexists. split.
    + apply catch_ok.
      erewrite bind_ok by (rewrite (load_readable old c w Hc Hf), Hl; reflexivity).
      erewrite bind_ok by (unfold lift; rewrite Hg; reflexivity).
      erewrite bind_ok by exact Hs.
      erewrite bind_ok by (unfold copyFileSync; rewrite Hcp, Hc1; reflexivity).
      reflexivity.
    + cbn [files push_event set_files].
      split; [rewrite upd_other by apply eqb_bak; exact Hc1|].
      split; [apply upd_same|].
      intros q Hq. now apply upd_other.
Qed.

Lemma C9_migrate_repeats_witness :
  exists w2,
    migrateFromSingleFile Sample.legacy Sample.legacy_world = (Ok true, w2) /\
    files w2 Sample.legacy = files Sample.legacy_world Sample.legacy /\
    files w2 (Sample.legacy ++ ".bak") = Some Sample.day_file /\
    (forall q, String.eqb q (Sample.legacy ++ ".bak") = false ->
       files w2 q
       = files (snd (save_groups [("2025-05-06", [Sample.demo])] Sample.legacy_world)) q).
Proof.
  exact (proj2 (C9_migrate_repeats Sample.legacy Sample.day_file Sample.legacy_world
                  (snd (save_groups [("2025-05-06", [Sample.demo])] Sample.legacy_world))
                  [Sample.demo] [("2025-05-06", [Sample.demo])])
           ltac:(vm_compute; reflexivity) ltac:(vm_compute; reflexivity)
           ltac:(vm_compute; reflexivity) ltac:(vm_compute; reflexivity)
           ltac:(vm_compute; reflexivity) ltac:(vm_compute; reflexivity)
           ltac:(vm_compute; reflexivity)).
Defined.

(** Claim C9, against the idempotent reading: migrate the old file (one
    record, [demo]), save [new_session] on the same day, then migrate
    again: the second call returns true and writes the day file back to
    the old file's single record, dropping [new_session]. *)
Lemma C9_second_migration_counterexample :
  let w1 := snd (migrateFromSingleFile Sample.legacy Sample.legacy_world) in
  let w2 := snd (saveSession Sample.new_session w1) in
  fst (migrateFromSingleFile Sample.legacy Sample.legacy_world) = Ok true /\
  files w2 Sample.partition = Some (Sample.rendered [Sample.demo; Sample.new_session]) /\
  fst (migrateFromSingleFile Sample.legacy w2) = Ok true /\
  files (snd (migrateFromSingleFile Sample.legacy w2)) Sample.partition
  = Some (Sample.rendered [Sample.demo]).
Proof. repeat split; vm_compute; reflexivity. Qed.

(* ================================================================== *)
(** * Further properties of the code *)

(* ------------------------------------------------------------------ *)
(** ** Quote doubling and the line parser *)

(** An escaped field is read back by the line parser as exactly its
    value, whatever follows it (short of a quote). *)
Lemma parse_loop_escaped_exact (v s : string) (acc : list string) :
  starts_with dq s = false ->
  parse_loop (escapeCSV (Some v) ++ s) false EmptyString acc = parse_loop s false v acc.
Proof.
  intros Hs. cbn [escapeCSV].
  destruct (includes comma v || includes dq v || includes nl v) eqn:E.
  - rewrite !sapp_assoc. cbn [str1 String.append].
    rewrite parse_loop_open_quote.
    apply (parse_loop_quoted v s EmptyString acc Hs).
  - apply parse_loop_plain. unfold plain.
    apply orb_false_iff in E as [E _]. now rewrite E.
Qed.

Lemma parse_loop_join_escaped (vs : list string) (acc : list string) :
  vs <> [] ->
  parse_loop (join "," (map (fun v => escapeCSV (Some v)) vs)) false EmptyString acc
  = (acc ++ vs)%list.
Proof.
  revert acc. induction vs as [|v r IH]; intros acc Hne; [congruence|].
  destruct r as [|w r].
  - cbn [map join]. rewrite <- (sapp_nil_r (escapeCSV (Some v))).
    rewrite parse_loop_escaped_exact by reflexivity. reflexivity.
  - change (join "," (map (fun v => escapeCSV (Some v)) (v :: w :: r)))
      with (escapeCSV (Some v)
            ++ String comma (join "," (map (fun v => escapeCSV (Some v)) (w :: r)))).
    rewrite parse_loop_escaped_exact by reflexivity. rewrite parse_loop_comma.
    rewrite IH by discriminate. now rewrite <- app_assoc.
Qed.

(** Extra: [parseCSVLine] inverts [escapeCSV] followed by joining with
    commas: any non-empty list of strings, whatever commas, quotes or
    line breaks they hold, is read back field for field. *)
Theorem parseCSVLine_join_escapeCSV (vs : list string) :
  vs <> [] ->
  parseCSVLine (join "," (map (fun v => escapeCSV (Some v)) vs)) = vs.
Proof. intros H. unfold parseCSVLine. now rewrite parse_loop_join_escaped. Qed.

Lemma parseCSVLine_join_escapeCSV_witness :
  parseCSVLine (join "," (map (fun v => escapeCSV (Some v))
                   ["a,b"; str1 dq ++ "q" ++ str1 dq; "x" ++ str1 nl ++ "y"; EmptyString]))
  = ["a,b"; str1 dq ++ "q" ++ str1 dq; "x" ++ str1 nl ++ "y"; EmptyString].
Proof. apply parseCSVLine_join_escapeCSV. discriminate. Defined.

(** Extra: the quote doubling of [escapeCSV] is undone by the
    [replace(/QQ/g, Q)] of [parseCSVValue]. *)
Theorem undouble_double_quotes (s : string) : undouble_quotes (double_quotes s) = s.
Proof.
  induction s as [|c s IH]; [reflexivity|]. cbn [double_quotes].
  destruct (Ascii.eqb c dq) eqn:E.
  - apply Ascii.eqb_eq in E. subst c. cbn [undouble_quotes].
    rewrite Ascii.eqb_refl. cbn [andb]. now rewrite IH.
  - destruct (double_quotes s) as [|c' s'] eqn:Ed.
    + cbn [undouble_quotes]. rewrite <- IH. reflexivity.
    + change (undouble_quotes (String c (String c' s')))
        with (if Ascii.eqb c dq && Ascii.eqb c' dq then String dq (undouble_quotes s')
              else String c (undouble_quotes (String c' s'))).
      rewrite E. cbn [andb]. rewrite IH. reflexivity.
Qed.

(* ------------------------------------------------------------------ *)
(** ** Numbers: [String(x)] read back by [Number(...)] *)

Ltac digit_cases k :=
  let H := fresh in
  assert (H : k = 0 \/ k = 1 \/ k = 2 \/ k = 3 \/ k = 4 \/ k = 5 \/ k = 6
              \/ k = 7 \/ k = 8 \/ k = 9) by lia;
  repeat destruct H as [H|H]; subst k; (reflexivity || (split; reflexivity)).

Lemma digit_value_char (k : Z) : 0 <= k < 10 -> digit_value (digit_char k) = Some k.
Proof. intros Hk. digit_cases k. Qed.

Lemma is_js_space_digit (k : Z) : 0 <= k < 10 -> is_js_space (digit_char k) = false.
Proof. intros Hk. digit_cases k. Qed.

Lemma digit_not_sign (k : Z) :
  0 <= k < 10 -> Ascii.eqb (digit_char k) "-" = false /\ Ascii.eqb (digit_char k) "+" = false.
Proof. intros Hk. digit_cases k. Qed.

Lemma read_digits_app (a b : string) (acc : Z) :
  read_digits (a ++ b) acc
  = match read_digits a acc with Some v => read_digits b v | None => None end.
Proof.
  revert acc. induction a as [|c a IH]; intros acc; [reflexivity|].
  cbn [String.append read_digits]. destruct (digit_value c); [apply IH | reflexivity].
Qed.

Lemma read_digits_dec (fuel : nat) (n : Z) :
  0 <= n < 10 ^ Z.of_nat (S fuel) -> read_digits (dec_digits fuel n) 0 = Some n.
Proof.
  revert n. induction fuel as [|f IH]; intros n Hn; cbn [dec_digits].
  - cbn [str1 read_digits]. rewrite digit_value_char by (apply Z.mod_pos_bound; lia).
    cbn in Hn. rewrite Z.mod_small by lia. reflexivity.
  - destruct (n <? 10) eqn:E.
    + apply Z.ltb_lt in E. cbn [str1 read_digits].
      rewrite digit_value_char by lia. reflexivity.
    + apply Z.ltb_ge in E. rewrite read_digits_app, IH.
      * cbn [str1 read_digits].
        rewrite digit_value_char by (apply Z.mod_pos_bound; lia).
        f_equal. pose proof (Z.div_mod n 10). lia.
      * split; [apply Z.div_pos; lia|].
        apply Z.div_lt_upper_bound; [lia|].
        rewrite Nat2Z.inj_succ in Hn |- *. rewrite Z.pow_succ_r in Hn by lia. lia.
Qed.

Lemma dec_of_nonneg_fuel (n : Z) :
  0 <= n -> n < 10 ^ Z.of_nat (S (Z.to_nat (Z.log2 n + 1))).
Proof.
  intros Hn. pose proof (Z.log2_nonneg n).
  rewrite Nat2Z.inj_succ, Z2Nat.id by lia.
  apply Z.lt_le_trans with (2 ^ (Z.log2 n + 1)).
  - destruct (Z.eq_dec n 0) as [->|Hz]; [reflexivity|].
    apply Z.log2_spec; lia.
  - apply Z.le_trans with (10 ^ (Z.log2 n + 1)).
    + apply Z.pow_le_mono_l; lia.
    + apply Z.pow_le_mono_r; lia.
Qed.

Lemma read_dec_of_nonneg (n : Z) : 0 <= n -> read_digits (dec_of_nonneg n) 0 = Some n.
Proof.
  intros Hn. unfold dec_of_nonneg. apply read_digits_dec.
  split; [exact Hn | apply dec_of_nonneg_fuel, Hn].
Qed.

Lemma dec_digits_shape (fuel : nat) (n : Z) :
  0 <= n ->
  (exists k r, 0 <= k < 10 /\ dec_digits fuel n = String (digit_char k) r) /\
  (exists p k, 0 <= k < 10 /\ dec_digits fuel n = p ++ str1 (digit_char k)).
Proof.
  revert n. induction fuel as [|f IH]; intros n Hn; cbn [dec_digits].
  - pose proof (Z.mod_pos_bound n 10).
    split; [exists (n mod 10), EmptyString | exists EmptyString, (n mod 10)];
      split; (lia || reflexivity).
  - destruct (n <? 10) eqn:E.
    + apply Z.ltb_lt in E.
      split; [exists n, EmptyString | exists EmptyString, n]; split; (lia || reflexivity).
    + apply Z.ltb_ge in E. pose proof (Z.mod_pos_bound n 10).
      destruct (IH (n / 10)) as [[k [r [Hk Hr]]] _]; [apply Z.div_pos; lia|].
      split.
      * exists k, (r ++ str1 (digit_char (n mod 10))). split; [exact Hk|].
        rewrite Hr. reflexivity.
      * exists (dec_digits f (n / 10)), (n mod 10). split; [lia | reflexivity].
Qed.

Lemma rev_string_snoc (p : string) (d : ascii) (acc : string) :
  rev_string (p ++ str1 d) acc = String d (rev_string p acc).
Proof.
  revert acc. induction p as [|c p IH]; intros acc; [reflexivity|].
  cbn [String.append rev_string]. apply IH.
Qed.

Lemma rev_string_rev (s acc acc2 : string) :
  rev_string (rev_string s acc) acc2 = rev_string acc (s ++ acc2).
Proof.
  revert acc. induction s as [|c s IH]; intros acc; [reflexivity|].
  cbn [rev_string String.append]. rewrite IH. reflexivity.
Qed.

(** [trim()] leaves a string alone that starts and ends with a non-space. *)
Lemma js_trim_id (s p : string) (d : ascii) :
  trim_left s = s -> s = p ++ str1 d -> is_js_space d = false -> js_trim s = s.
Proof.
  intros Hl Hs Hd. unfold js_trim. rewrite Hl, Hs, rev_string_snoc.
  cbn [trim_left]. rewrite Hd.
  change (rev_string (String d (rev_string p EmptyString)) EmptyString)
    with (rev_string (rev_string p EmptyString) (str1 d)).
  rewrite rev_string_rev. reflexivity.
Qed.

(** Extra: a duration is written by [saveSessionsToFile] as [String(d)]
    and read back by [loadSessionsFromFile] through [Number(...)] as the
    same value, NaN included. *)
Theorem js_Number_num_to_string (x : Num) : js_Number (Some (num_to_string x)) = x.
Proof.
  destruct x as [z|]; [|reflexivity]. cbn [num_to_string].
  destruct (z <? 0) eqn:E.
  - apply Z.ltb_lt in E.
    assert (Hr : read_digits (dec_of_nonneg (- z)) 0 = Some (- z))
      by (apply read_dec_of_nonneg; lia).
    unfold dec_of_nonneg in *.
    destruct (dec_digits_shape (Z.to_nat (Z.log2 (- z) + 1)) (- z)) as
      [[k [r [Hk Hkr]]] [p [k' [Hk' Hp]]]]; [lia|].
    remember (dec_digits (Z.to_nat (Z.log2 (- z) + 1)) (- z)) as D eqn:HD.
    assert (Ht : js_trim ("-" ++ D) = "-" ++ D).
    { apply (js_trim_id _ ("-" ++ p) (digit_char k')); [reflexivity| |].
      - rewrite Hp. reflexivity.
      - apply is_js_space_digit, Hk'. }
    unfold js_Number. rewrite Ht. rewrite Hkr in Hr |- *.
    change ("-" ++ String (digit_char k) r) with (String "-" (String (digit_char k) r)).
    cbv beta iota zeta. rewrite Ascii.eqb_refl. rewrite Hr. f_equal. lia.
  - apply Z.ltb_ge in E.
    assert (Hr : read_digits (dec_of_nonneg z) 0 = Some z) by (apply read_dec_of_nonneg; lia).
    unfold dec_of_nonneg in *.
    destruct (dec_digits_shape (Z.to_nat (Z.log2 z + 1)) z) as
      [[k [r [Hk Hkr]]] [p [k' [Hk' Hp]]]]; [lia|].
    remember (dec_digits (Z.to_nat (Z.log2 z + 1)) z) as D eqn:HD.
    assert (Ht : js_trim D = D).
    { apply (js_trim_id _ p (digit_char k')); [| exact Hp | apply is_js_space_digit, Hk'].
      rewrite Hkr. cbn [trim_left]. now rewrite is_js_space_digit. }
    unfold js_Number. rewrite Ht. rewrite Hkr in Hr |- *.
    destruct (digit_not_sign k Hk) as [Hm Hp'].
    cbv beta iota zeta. rewrite Hm, Hp'. rewrite Hr. reflexivity.
Qed.

(* ------------------------------------------------------------------ *)
(** ** Dates: [toISOString] read back by [new Date(...)] *)

Lemma civil_roundtrip_all : all_below (Z.to_nat 146097) civil_roundtrip = true.
Proof. vm_compute. reflexivity. Qed.


Lemma civil_of_doe_year (era doe : Z) :
  fst (fst (civil_of_doe era doe)) = fst (fst (civil_of_doe 0 doe)) + era * 400.
Proof.
  unfold civil_of_doe. cbn [fst snd].
  destruct (_ <=? 2); lia.
Qed.

Lemma days_from_civil_era (y m d e : Z) :
  days_from_civil (y + e * 400) m d = days_from_civil y m d + e * 146097.
Proof.
  unfold days_from_civil. cbv zeta.
  set (y' := if m <=? 2 then y - 1 else y).
  assert (Hy : (if m <=? 2 then y + e * 400 - 1 else y + e * 400) = y' + e * 400)
    by (unfold y'; destruct (m <=? 2); lia).
  rewrite Hy. rewrite Z.div_add by lia.
  replace (y' + e * 400 - (y' / 400 + e) * 400) with (y' - y' / 400 * 400) by ring.
  lia.
Qed.

(** [days_from_civil] inverts [civil_from_days], and years stay within
    400 years of the era start. *)
Lemma civil_from_days_inv (days : Z) :
  let '(y, m, d) := civil_from_days days in
  days_from_civil y m d = days /\
  (days + 719468) / 146097 * 400 <= y <= (days + 719468) / 146097 * 400 + 400.
Proof.
  unfold civil_from_days.
  set (z := days + 719468). set (era := z / 146097).
  assert (Hdoe : 0 <= z - era * 146097 < 146097).
  { pose proof (Z.mod_pos_bound z 146097). rewrite Z.mod_eq in H by lia.
    unfold era. lia. }
  pose proof (all_below_spec _ _ civil_roundtrip_all _ Hdoe) as H.
  pose proof (civil_of_doe_year era (z - era * 146097)) as Hy.
  pose proof (civil_of_doe_md era 0 (z - era * 146097)) as [Hm Hd].
  unfold civil_roundtrip in H.
  destruct (civil_of_doe 0 (z - era * 146097)) as [[y0 m0] d0].
  destruct (civil_of_doe era (z - era * 146097)) as [[y m] d].
  cbn [fst snd] in Hy, Hm, Hd. subst y m d.
  apply andb_true_iff in H as [H H3]. apply andb_true_iff in H as [H1 H2].
  apply Z.leb_le in H1, H2. apply Z.eqb_eq in H3.
  rewrite days_from_civil_era, H3. unfold z in *. lia.
Qed.

Lemma take_digits_app (w : nat) (s rest : string) (acc : Z) :
  String.length s = w ->
  take_digits w (s ++ rest) acc
  = match read_digits s acc with Some v => Some (v, rest) | None => None end.
Proof.
  revert s acc. induction w as [|w IH]; intros s acc Hl.
  - destruct s; [reflexivity | discriminate].
  - destruct s as [|c s]; [discriminate|]. cbn in Hl.
    cbn [String.append take_digits read_digits obind].
    destruct (digit_value c); [apply IH; lia | reflexivity].
Qed.

Lemma read_digits_pad (w : nat) (n acc : Z) :
  0 <= n < 10 ^ Z.of_nat w ->
  read_digits (digits_pad w n) acc = Some (acc * 10 ^ Z.of_nat w + n).
Proof.
  revert n. induction w as [|w IH]; intros n Hn.
  - cbn in Hn |- *. f_equal. lia.
  - cbn [digits_pad]. rewrite Nat2Z.inj_succ, Z.pow_succ_r in Hn |- * by lia.
    rewrite read_digits_app, IH.
    + cbn [str1 read_digits].
      rewrite digit_value_char by (apply Z.mod_pos_bound; lia).
      f_equal. pose proof (Z.div_mod n 10). nia.
    + split; [apply Z.div_pos; lia|]. apply Z.div_lt_upper_bound; lia.
Qed.

Lemma take_digits_pad (w : nat) (n : Z) (rest : string) :
  0 <= n < 10 ^ Z.of_nat w -> take_digits w (digits_pad w n ++ rest) 0 = Some (n, rest).
Proof.
  intros Hn. rewrite take_digits_app by apply length_digits_pad.
  rewrite read_digits_pad by exact Hn. reflexivity.
Qed.

Lemma digits_pad_head (w : nat) (n : Z) :
  exists k r, 0 <= k < 10 /\ digits_pad (S w) n = String (digit_char k) r.
Proof.
  revert n. induction w as [|w IH]; intros n.
  - exists (n mod 10), EmptyString. split; [apply Z.mod_pos_bound; lia | reflexivity].
  - change (digits_pad (S (S w)) n) with (digits_pad (S w) (n / 10) ++ str1 (digit_char (n mod 10))).
    destruct (IH (n / 10)) as [k [r [Hk Hr]]]. rewrite Hr.
    exists k, (r ++ str1 (digit_char (n mod 10))). split; [exact Hk | reflexivity].
Qed.

Lemma parse_year_ok (y : Z) (rest : string) :
  - 10 ^ 6 < y < 10 ^ 6 ->
  parse_year ((if (0 <=? y) && (y <=? 9999) then digits_pad 4 y
               else (if y <? 0 then "-" else "+") ++ digits_pad 6 (Z.abs y)) ++ rest)
  = Some (y, rest).
Proof.
  intros Hy. destruct ((0 <=? y) && (y <=? 9999)) eqn:E.
  - apply andb_true_iff in E as [E1 E2]. apply Z.leb_le in E1, E2.
    destruct (digits_pad_head 3 y) as [k [r [Hk Hr]]].
    unfold parse_year. rewrite Hr. cbn [String.append].
    destruct (digit_not_sign k Hk) as [Hm Hp]. rewrite Hm, Hp.
    change (String (digit_char k) (r ++ rest)) with (String (digit_char k) r ++ rest).
    rewrite <- Hr. apply take_digits_pad. cbn. lia.
  - destruct (y <? 0) eqn:N.
    + apply Z.ltb_lt in N. cbn [String.append parse_year].
      change (Ascii.eqb "-" "+") with false. change (Ascii.eqb "-" "-") with true.
      cbv iota. rewrite take_digits_pad by (cbn; lia). cbn [obind fst snd].
      f_equal. f_equal. lia.
    + apply Z.ltb_ge in N. cbn [String.append parse_year].
      change (Ascii.eqb "+" "+") with true. cbv iota.
      rewrite take_digits_pad by (cbn; lia). f_equal. f_equal. lia.
Qed.

Lemma time_of_day_split (ms : Z) :
  0 <= ms ->
  ms = ms / 3600000 * 3600000 + (ms / 60000) mod 60 * 60000
       + (ms / 1000) mod 60 * 1000 + ms mod 1000.
Proof.
  intros Hms.
  assert (E1 : ms / 60000 = ms / 1000 / 60) by (rewrite Z.div_div; reflexivity || lia).
  assert (E2 : ms / 3600000 = ms / 1000 / 60 / 60) by (rewrite !Z.div_div; reflexivity || lia).
  rewrite E1, E2.
  pose proof (Z.div_mod ms 1000 ltac:(lia)).
  pose proof (Z.div_mod (ms / 1000) 60 ltac:(lia)).
  pose proof (Z.div_mod (ms / 1000 / 60) 60 ltac:(lia)).
  lia.
Qed.

Lemma expect_same (c : ascii) (s : string) : expect c (String c s) = Some s.
Proof. cbn [expect]. now rewrite Ascii.eqb_refl. Qed.

(** Extra: a time value in the range of [Date] that [toISOString] writes
    (as [saveSessionsToFile] does for start and end times) is read back
    by [new Date(...)] (as [loadSessionsFromFile] does) as the same time
    value, to the millisecond. *)
Theorem new_Date_toISOString (t : Z) (s : string) :
  Z.abs t <= 8640000000000000 -> toISOString (DateOf t) = Ok s ->
  new_Date (Some s) = DateOf t.
Proof.
  intros Hb Hs. unfold toISOString in Hs. apply Ok_inj in Hs. subst s.
  unfold utc_date.
  pose proof (civil_from_days_inv (t / msPerDay)) as Hinv.
  pose proof (civil_md_bounds (t / msPerDay)) as Hmd.
  destruct (civil_from_days (t / msPerDay)) as [[y m] d] eqn:Ec.
  destruct Hinv as [Hinv Hyb]. destruct Hmd as [Hm Hd].
  pose proof (Z.div_mod t msPerDay ltac:(unfold msPerDay; lia)) as Htd.
  pose proof (Z.mod_pos_bound t msPerDay ltac:(unfold msPerDay; lia)) as Htm.
  set (days := t / msPerDay) in *. set (ms := t mod msPerDay) in *.
  assert (Hy : - 10 ^ 6 < y < 10 ^ 6).
  { pose proof (Z.div_mod (days + 719468) 146097 ltac:(lia)).
    pose proof (Z.mod_pos_bound (days + 719468) 146097 ltac:(lia)).
    unfold msPerDay in *. cbn. lia. }
  assert (Hsplit := time_of_day_split ms ltac:(lia)).
  unfold msPerDay in Htm.
  unfold iso_date_part. rewrite !sapp_assoc.
  unfold new_Date, parse_iso.
  rewrite parse_year_ok by exact Hy. cbn [obind fst snd String.append].
  rewrite expect_same. cbn [obind].
  rewrite take_digits_pad by (cbn; lia). cbn [obind fst snd String.append].
  rewrite expect_same. cbn [obind].
  rewrite take_digits_pad by (cbn; lia). cbn [obind fst snd String.append].
  replace ((1 <=? m) && (m <=? 12) && (1 <=? d) && (d <=? 31)) with true
    by (symmetry; rewrite !andb_true_iff, !Z.leb_le; lia).
  cbn [negb]. rewrite Hinv. cbv iota.
  rewrite expect_same. cbn [obind].
  rewrite take_digits_pad by (cbn; split; [apply Z.div_pos; lia | apply Z.div_lt_upper_bound; lia]).
  cbn [obind fst snd String.append].
  rewrite expect_same. cbn [obind].
  rewrite take_digits_pad by (cbn; pose proof (Z.mod_pos_bound (ms / 60000) 60); lia).
  cbn [obind fst snd String.append].
  rewrite expect_same. cbn [obind].
  rewrite take_digits_pad by (cbn; pose proof (Z.mod_pos_bound (ms / 1000) 60); lia).
  cbn [obind fst snd String.append].
  rewrite expect_same. cbn [obind].
  rewrite take_digits_pad by (cbn; pose proof (Z.mod_pos_bound ms 1000); lia).
  cbn [obind fst snd String.append].
  rewrite expect_same. cbn [obind].
  replace ((ms / 3600000 <=? 23) && ((ms / 60000) mod 60 <=? 59) && ((ms / 1000) mod 60 <=? 59))
    with true.
  2:{ symmetry. rewrite !andb_true_iff, !Z.leb_le.
      pose proof (Z.mod_pos_bound (ms / 60000) 60).
      pose proof (Z.mod_pos_bound (ms / 1000) 60).
      split; [split|]; try lia. apply Z.lt_succ_r. apply Z.div_lt_upper_bound; lia. }
  unfold time_clip. replace (Z.abs _ <=? 8640000000000000) with true.
  - f_equal. unfold msPerDay in *. lia.
  - symmetry. apply Z.leb_le. unfold msPerDay in *. lia.
Qed.

(* ------------------------------------------------------------------ *)
(** ** A whole file: [saveSessionsToFile] read back by [loadSessionsFromFile] *)

Lemma one_line_app (a b : string) : one_line (a ++ b) = one_line a && one_line b.
Proof.
  unfold one_line. rewrite !includes_app.
  destruct (includes nl a), (includes cr a), (includes nl b), (includes cr b); reflexivity.
Qed.

Lemma one_line_digit_char (k : Z) : k < 10 -> one_line (str1 (digit_char k)) = true.
Proof.
  intros Hk. unfold digit_char.
  assert (H : (Z.to_nat k < 10)%nat) by lia.
  destruct (Z.to_nat k) as [|[|[|[|[|[|[|[|[|[|j]]]]]]]]]]; [reflexivity .. | lia].
Qed.

Lemma one_line_digits_pad (w : nat) (n : Z) : one_line (digits_pad w n) = true.
Proof.
  revert n. induction w as [|w IH]; intros n; [reflexivity|].
  cbn [digits_pad]. rewrite one_line_app, IH, one_line_digit_char; [reflexivity|].
  pose proof (Z.mod_pos_bound n 10). lia.
Qed.

Lemma one_line_dec_digits (fuel : nat) (n : Z) : one_line (dec_digits fuel n) = true.
Proof.
  revert n. induction fuel as [|f IH]; intros n; cbn [dec_digits].
  - apply one_line_digit_char. pose proof (Z.mod_pos_bound n 10). lia.
  - destruct (n <? 10) eqn:E.
    + apply one_line_digit_char. lia.
    + rewrite one_line_app, IH, one_line_digit_char; [reflexivity|].
      pose proof (Z.mod_pos_bound n 10). lia.
Qed.

Lemma one_line_num_to_string (x : Num) : one_line (num_to_string x) = true.
Proof.
  destruct x as [z|]; [|reflexivity]. cbn [num_to_string]. unfold dec_of_nonneg.
  destruct (z <? 0).
  - rewrite one_line_app, one_line_dec_digits. reflexivity.
  - apply one_line_dec_digits.
Qed.

Ltac one_line_pieces :=
  repeat (rewrite one_line_app || rewrite one_line_digits_pad); reflexivity.

Lemma one_line_toISOString (date : Date) (r : string) :
  toISOString date = Ok r -> one_line r = true.
Proof.
  destruct date as [t|]; intros H; [|discriminate].
  unfold toISOString in H. apply Ok_inj in H. subst r.
  rewrite one_line_app. destruct (utc_date t) as [[y m] d]. unfold iso_date_part.
  destruct ((0 <=? y) && (y <=? 9999)); [|destruct (y <? 0)]; one_line_pieces.
Qed.

Lemma one_line_double_quotes (v : string) : one_line (double_quotes v) = one_line v.
Proof.
  induction v as [|c v IH]; [reflexivity|]. cbn [double_quotes].
  destruct (Ascii.eqb c dq) eqn:E.
  - apply Ascii.eqb_eq in E. subst c. exact IH.
  - change (String c (double_quotes v)) with (str1 c ++ double_quotes v).
    change (String c v) with (str1 c ++ v). rewrite !one_line_app, IH. reflexivity.
Qed.

Lemma one_line_escapeCSV (v : option string) :
  one_line (escapeCSV v) = match v with Some s => one_line s | None => true end.
Proof.
  destruct v as [v|]; [|reflexivity]. cbn [escapeCSV].
  destruct (_ || _ || _); [|reflexivity].
  rewrite !one_line_app, one_line_double_quotes. cbn [str1].
  change (one_line (String dq EmptyString)) with true. now rewrite andb_true_r.
Qed.

Lemma one_line_join (l : list string) :
  forallb one_line l = true -> one_line (join "," l) = true.
Proof.
  induction l as [|x r IH]; intros H; [reflexivity|].
  cbn [forallb] in H. apply andb_true_iff in H as [Hx Hr].
  destruct r as [|y r]; [exact Hx|].
  change (join "," (x :: y :: r)) with (x ++ "," ++ join "," (y :: r)).
  rewrite !one_line_app, Hx, IH by exact Hr. reflexivity.
Qed.

Lemma not_blank_app (a b : string) : not_blank (a ++ b) = not_blank a || not_blank b.
Proof.
  induction a as [|c a IH]; [reflexivity|]. cbn [String.append not_blank].
  rewrite IH. apply orb_assoc.
Qed.

(** The lines between two breaks: a piece with no LF and no CR is
    added to the current line. *)
Lemma split_lines_loop_one_line (l rest cur : string) :
  one_line l = true -> split_lines_loop (l ++ rest) cur = split_lines_loop rest (cur ++ l).
Proof.
  revert cur. induction l as [|c l IH]; intros cur Hl.
  - now rewrite sapp_nil_r.
  - unfold one_line in Hl. cbn [includes] in Hl.
    destruct (Ascii.eqb nl c) eqn:En; [discriminate|].
    destruct (Ascii.eqb cr c) eqn:Ec; [rewrite orb_true_r in Hl; discriminate|].
    cbn [String.append split_lines_loop].
    rewrite (Ascii.eqb_sym c nl), En, (Ascii.eqb_sym c cr), Ec.
    rewrite IH by (unfold one_line; exact Hl). now rewrite sapp_assoc.
Qed.

Lemma reads_as_plain (f : string) : plain f = true -> reads_as f f.
Proof. intros Hf s acc _. apply parse_loop_plain, Hf. Qed.

Lemma reads_as_escaped (v : option string) :
  reads_as (escapeCSV v) (match v with Some s => s | None => EmptyString end).
Proof.
  destruct v as [v|]; intros s acc Hs.
  - apply parse_loop_escaped_exact, Hs.
  - reflexivity.
Qed.

Lemma parse_loop_join_values (fields vals acc : list string) :
  fields <> [] -> Forall2 reads_as fields vals ->
  parse_loop (join "," fields) false EmptyString acc = (acc ++ vals)%list.
Proof.
  intros Hne H. revert acc Hne. induction H as [|f d r ds Hfd Hr IH]; intros acc Hne;
    [congruence|].
  destruct r as [|g r].
  - inversion Hr; subst. cbn [join].
    rewrite <- (sapp_nil_r f), Hfd by reflexivity. reflexivity.
  - change (join "," (f :: g :: r)) with (f ++ String comma (join "," (g :: r))).
    rewrite Hfd by reflexivity. rewrite parse_loop_comma.
    rewrite IH by discriminate. now rewrite <- app_assoc.
Qed.

Lemma parseCSVValue_text (v : string) :
  negb (starts_with dq v && ends_with dq v) = true -> parseCSVValue (Some v) = Ok v.
Proof.
  intros H. cbn [parseCSVValue]. apply negb_true_iff in H. rewrite H.
  destruct (String.eqb v EmptyString) eqn:E; [apply String.eqb_eq in E; now subst|].
  reflexivity.
Qed.

Lemma text_ok_parts (v : string) :
  text_ok v = true -> one_line v = true /\ parseCSVValue (Some v) = Ok v.
Proof.
  unfold text_ok. intros H. apply andb_true_iff in H as [H1 H2].
  split; [exact H1 | apply parseCSVValue_text, H2].
Qed.

Lemma opt_field (o : option string) :
  opt_text_ok o = true ->
  one_line (escapeCSV o) = true /\
  (if truthy (Some (match o with Some s => s | None => EmptyString end))
   then c <-- parseCSVValue (Some (match o with Some s => s | None => EmptyString end)) ;;
        Ok (Some c)
   else Ok None) = Ok o.
Proof.
  destruct o as [v|]; intros H; [|split; reflexivity].
  cbn [opt_text_ok] in H. apply andb_true_iff in H as [Hne Ht].
  apply text_ok_parts in Ht as [H1 H2].
  rewrite one_line_escapeCSV. split; [exact H1|].
  cbn [truthy]. rewrite Hne. rewrite H2. reflexivity.
Qed.

Lemma iso_nonempty (date : Date) (r : string) :
  toISOString date = Ok r -> String.eqb r EmptyString = false.
Proof.
  destruct date as [t|]; intros H; [|discriminate].
  unfold toISOString in H. apply Ok_inj in H. subst r.
  destruct (iso_date_part _); reflexivity.
Qed.

Lemma toISOString_ok (t : Z) : exists r, toISOString (DateOf t) = Ok r.
Proof. eexists. reflexivity. Qed.

Lemma end_field (et : option Date) :
  match et with Some d => date_ok d | None => true end = true ->
  exists ets,
    match et with Some d => toISOString d | None => Ok EmptyString end = Ok ets /\
    plain ets = true /\ one_line ets = true /\
    (if truthy (Some ets) then Some (new_Date (Some ets)) else None) = et.
Proof.
  destruct et as [[e|]|]; intros H; [| discriminate |].
  - destruct (toISOString_ok e) as [E HE]. exists E.
    split; [exact HE|]. split; [apply (plain_toISOString _ _ HE)|].
    split; [apply (one_line_toISOString _ _ HE)|].
    cbn [truthy]. rewrite (iso_nonempty _ _ HE). cbn [negb].
    cbn [date_ok] in H. apply Z.leb_le in H.
    rewrite (new_Date_toISOString e E H HE). reflexivity.
  - exists EmptyString. repeat split.
Qed.

Lemma session_line_roundtrip (s : TimeSession) :
  row_ok s = true ->
  exists line, session_line s = Ok line /\ one_line line = true /\
    not_blank line = true /\ parse_record line = Ok s.
Proof.
  destruct s as [i fn fp pr st et du cat nts]. unfold row_ok. cbn [id fileName filePath
    project startTime endTime duration category notes].
  intros H. repeat rewrite andb_true_iff in H.
  destruct H as [[[[[[[[Hi1 Hi2] Hfn] Hfp] Hpr] Hst] Het] Hcat] Hnts].
  destruct st as [t0|]; [|discriminate]. cbn [date_ok] in Hst. apply Z.leb_le in Hst.
  destruct (toISOString_ok t0) as [S HS].
  destruct (end_field et Het) as [ets [Hets [Hetp [Hetl Hetb]]]].
  apply text_ok_parts in Hfn as [Hfn1 Hfn2].
  apply text_ok_parts in Hfp as [Hfp1 Hfp2].
  apply text_ok_parts in Hpr as [Hpr1 Hpr2].
  destruct (opt_field cat Hcat) as [Hcat1 Hcat2].
  destruct (opt_field nts Hnts) as [Hnts1 Hnts2].
  set (fields := [i; escapeCSV (Some fn); escapeCSV (Some fp); escapeCSV (Some pr); S; ets;
                  num_to_string du; escapeCSV cat; escapeCSV nts]).
  exists (join "," fields). split; [|split; [|split]].
  - unfold session_line. cbn [startTime endTime]. rewrite HS. cbn [rbind].
    rewrite Hets. reflexivity.
  - apply one_line_join. cbn [forallb fields].
    rewrite Hcat1, Hnts1, Hi2, !one_line_escapeCSV, Hfn1, Hfp1, Hpr1,
      (one_line_toISOString _ _ HS), Hetl, one_line_num_to_string. reflexivity.
  - change (join "," fields) with (i ++ String comma (join "," (tl fields))).
    rewrite not_blank_app. apply orb_true_iff. right. reflexivity.
  - unfold parse_record, parseCSVLine.
    rewrite (parse_loop_join_values fields
      [i; fn; fp; pr; S; ets; num_to_string du;
       match cat with Some s => s | None => EmptyString end;
       match nts with Some s => s | None => EmptyString end]); [| discriminate |].
    2:{ unfold fields.
        repeat (apply Forall2_cons;
          [first [ apply reads_as_escaped
                 | apply reads_as_plain;
                   first [ apply plain_of_csv_safe; assumption
                         | exact (plain_toISOString _ _ HS)
                         | apply plain_num_to_string
                         | assumption ] ] |]).
        apply Forall2_nil. }
    cbn [app nth_error hd]. rewrite Hfn2, Hfp2, Hpr2. cbn [rbind].
    rewrite Hcat2. cbn [rbind]. rewrite Hnts2. cbn [rbind].
    rewrite (new_Date_toISOString t0 S Hst HS), Hetb, js_Number_num_to_string.
    reflexivity.
Qed.

Lemma render_rows_roundtrip (ss : list TimeSession) :
  forallb row_ok ss = true ->
  exists r, render_rows ss = Ok r /\
    mapRes parse_record (filter not_blank (split_lines_loop r EmptyString)) = Ok ss.
Proof.
  induction ss as [|s ss IH]; intros H.
  - exists EmptyString. split; reflexivity.
  - cbn [forallb] in H. apply andb_true_iff in H as [Hs Hss].
    destruct (session_line_roundtrip s Hs) as [line [Hl [Hol [Hnb Hpr]]]].
    destruct (IH Hss) as [r [Hr Hp]].
    exists (line ++ str1 nl ++ r). split.
    + cbn [render_rows]. rewrite Hl. cbn [rbind]. rewrite Hr. reflexivity.
    + rewrite split_lines_loop_one_line by exact Hol. cbn [str1 String.append].
      cbn [split_lines_loop]. rewrite Ascii.eqb_refl.
      cbn [filter]. rewrite Hnb. cbn [mapRes]. rewrite Hpr. cbn [rbind].
      rewrite Hp. reflexivity.
Qed.

Lemma render_content_roundtrip (ss : list TimeSession) :
  forallb row_ok ss = true ->
  exists c, render_content ss = Ok c /\ parse_content c = Ok ss.
Proof.
  intros H. destruct (render_rows_roundtrip ss H) as [r [Hr Hp]].
  exists (CSV_HEADER ++ str1 nl ++ r). split.
  - unfold render_content. rewrite Hr. reflexivity.
  - unfold parse_content, split_lines.
    rewrite split_lines_loop_one_line by reflexivity. cbn [str1 String.append].
    cbn [split_lines_loop]. rewrite Ascii.eqb_refl. cbn [tl]. exact Hp.
Qed.

(** Extra: saving a day's sessions over an existing day file and loading
    that file back gives the same sessions, field for field, whenever
    every session has valid dates, an id with no comma, quote or line
    break, text fields on one line that do not both start and end with a
    double quote, and a category and notes that are absent or non-empty. *)
Theorem save_then_load (ss : list TimeSession) (p c : string) (w : World) :
  forallb row_ok ss = true ->
  files w p = Some c ->
  fails w (OpCopy p (p ++ ".backup")) = false ->
  fails w (OpWrite p) = false ->
  fails w (OpUnlink (p ++ ".backup")) = false ->
  fails w (OpRead p) = false ->
  exists w', saveSessionsToFile ss p w = (Ok tt, w') /\
             loadSessionsFromFile p w' = (Ok ss, w').
Proof.
  intros Hok Hc Hcp Hw Hu Hrd.
  destruct (render_content_roundtrip ss Hok) as [out [Hr Hp]].
  rewrite (saveSessionsToFile_ok ss p c out w Hc Hcp Hw Hu Hr).
  eexists. split; [reflexivity|].
  rewrite load_readable with (c := out).
  - rewrite Hp. reflexivity.
  - cbn [files]. rewrite upd_other by (rewrite String.eqb_sym; apply eqb_backup).
    apply upd_same.
  - exact Hrd.
Qed.

Lemma new_Date_toISOString_witness :
  new_Date (Some "2025-05-06T10:00:00.000Z") = DateOf Sample.t_start.
Proof.
  apply (new_Date_toISOString Sample.t_start).
  - unfold Sample.t_start. lia.
  - vm_compute. reflexivity.
Defined.

Lemma save_then_load_witness :
  exists w', saveSessionsToFile
               [Sample.demo; Sample.session_with "2" ("a,b" ++ str1 dq ++ "c") (Some "x, y")]
               Sample.partition (Sample.world_with Sample.day_file Sample.t_start) = (Ok tt, w') /\
             loadSessionsFromFile Sample.partition w'
             = (Ok [Sample.demo; Sample.session_with "2" ("a,b" ++ str1 dq ++ "c") (Some "x, y")], w').
Proof.
  apply (save_then_load _ _ Sample.day_file); vm_compute; reflexivity.
Defined.

(* ------------------------------------------------------------------ *)
(** ** Grouping the old file by day ([migrateFromSingleFile]) *)

Lemma group_of_add (k k' : string) (s : TimeSession) (m : list (string * list TimeSession)) :
  group_of k' (group_add k s m)
  = (group_of k' m ++ (if String.eqb k' k then [s] else []))%list.
Proof.
  induction m as [|[k0 g] r IH]; cbn [group_add group_of].
  - destruct (String.eqb k' k); reflexivity.
  - destruct (String.eqb k k0) eqn:E0; cbn [group_of].
    + apply String.eqb_eq in E0. subst k0.
      destruct (String.eqb k' k); [reflexivity | now rewrite app_nil_r].
    + destruct (String.eqb k' k0) eqn:E1; [|exact IH].
      apply String.eqb_eq in E1. subst k0.
      rewrite String.eqb_sym in E0. rewrite E0. now rewrite app_nil_r.
Qed.

Lemma keys_add (k : string) (s : TimeSession) (m : list (string * list TimeSession)) :
  forall x, In x (map fst (group_add k s m)) <-> In x (map fst m) \/ x = k.
Proof.
  induction m as [|[k0 g] r IH]; intros x; cbn [group_add map fst].
  - cbn. intuition.
  - destruct (String.eqb k k0) eqn:E0; cbn [map fst In].
    + apply String.eqb_eq in E0. subst k0. intuition.
    + rewrite IH. intuition.
Qed.

Lemma nodup_add (k : string) (s : TimeSession) (m : list (string * list TimeSession)) :
  NoDup (map fst m) -> NoDup (map fst (group_add k s m)).
Proof.
  induction m as [|[k0 g] r IH]; intros H; cbn [group_add map fst].
  - repeat constructor. intros [].
  - inversion H as [|x l Hn Hd]; subst.
    destruct (String.eqb k k0) eqn:E0; cbn [map fst]; [exact H|].
    constructor; [|exact (IH Hd)].
    rewrite keys_add. intros [Hin | ->]; [exact (Hn Hin)|].
    rewrite String.eqb_refl in E0. discriminate.
Qed.

Lemma group_by_day_inv (l : list TimeSession) (m m' : list (string * list TimeSession)) :
  group_by_day l m = Ok m' ->
  (forall k, group_of k m' = (group_of k m ++ filter (same_day k) l)%list) /\
  (NoDup (map fst m) -> NoDup (map fst m')) /\
  (forall k, In k (map fst m') -> In k (map fst m) \/ exists s, In s l /\ same_day k s = true).
Proof.
  revert m. induction l as [|s l IH]; intros m H; cbn [group_by_day] in H.
  - injection H as <-. split; [intros k; cbn; now rewrite app_nil_r|]. split; [auto|].
    intros k Hk. now left.
  - destruct (formatDateToString (startTime s)) as [dk|e] eqn:Ef; [|discriminate].
    cbn [rbind] in H. destruct (IH _ H) as [H1 [H2 H3]]. split; [|split].
    + intros k. rewrite H1, group_of_add. cbn [filter]. unfold same_day at 2.
      rewrite Ef. rewrite <- app_assoc. rewrite (String.eqb_sym dk k).
      destruct (String.eqb k dk); reflexivity.
    + intros Hd. apply H2, nodup_add, Hd.
    + intros k Hk. destruct (H3 k Hk) as [Hin|[s' [Hs' Hsd]]].
      * apply keys_add in Hin as [Hin| ->]; [now left|].
        right. exists s. split; [now left|]. unfold same_day. rewrite Ef.
        apply String.eqb_refl.
      * right. exists s'. split; [now right | exact Hsd].
Qed.

Lemma group_of_in (k : string) (g : list TimeSession) (m : list (string * list TimeSession)) :
  NoDup (map fst m) -> In (k, g) m -> group_of k m = g.
Proof.
  induction m as [|[k0 g0] r IH]; intros Hd Hin; [destruct Hin|].
  inversion Hd as [|x l Hn Hd']; subst. cbn [group_of].
  destruct Hin as [Heq|Hin].
  - injection Heq as -> ->. now rewrite String.eqb_refl.
  - destruct (String.eqb k k0) eqn:E.
    + apply String.eqb_eq in E. subst k0. exfalso. apply Hn.
      apply (in_map fst) in Hin. exact Hin.
    + exact (IH Hd' Hin).
Qed.

(** Extra: the grouping of [migrateFromSingleFile] gives one group per UTC
    start day, each key once: the group stored under a day is exactly the
    list of sessions of the old file that start on that day, in their
    order in the old file, and it is never empty. *)
Theorem group_by_day_groups (l : list TimeSession) (m : list (string * list TimeSession)) :
  group_by_day l [] = Ok m ->
  NoDup (map fst m) /\
  forall k g, In (k, g) m -> g = filter (same_day k) l /\ g <> [].
Proof.
  intros H. destruct (group_by_day_inv l [] m H) as [H1 [H2 H3]].
  assert (Hd : NoDup (map fst m)) by (apply H2; constructor).
  split; [exact Hd|]. intros k g Hin.
  rewrite <- (group_of_in k g m Hd Hin), H1. cbn [group_of app].
  split; [reflexivity|].
  destruct (H3 k (in_map fst _ _ Hin)) as [[]|[s [Hs Hsd]]].
  intros Hnil. assert (Hf : In s (filter (same_day k) l)) by (apply filter_In; auto).
  rewrite Hnil in Hf. destruct Hf.
Qed.

Lemma formatDateToString_Invalid : formatDateToString InvalidDate = Err RangeError.
Proof. reflexivity. Qed.

(** Extra: the grouping of [migrateFromSingleFile] throws exactly when some
    session of the old file has an invalid start date ([toISOString]
    throws a [RangeError]). *)
Theorem group_by_day_fails (l : list TimeSession) (m : list (string * list TimeSession)) :
  (exists e, group_by_day l m = Err e) <-> (exists s, In s l /\ startTime s = InvalidDate).
Proof.
  revert m. induction l as [|s l IH]; intros m; cbn [group_by_day].
  - split; [intros [e H]; discriminate | intros [s [[] _]]].
  - destruct (startTime s) as [t|] eqn:Es.
    + rewrite formatDateToString_DateOf. cbn [rbind]. rewrite IH.
      split.
      * intros [s' [Hin Hs']]. exists s'. split; [now right | exact Hs'].
      * intros [s' [[<-|Hin] Hs']]; [congruence|]. exists s'. auto.
    + cbn [formatDateToString toISOString rbind]. split; [intros _|intros _; eauto].
      exists s. split; [now left | exact Es].
Qed.

Lemma year_bound (days : Z) :
  - 100000000 <= days <= 100000000 ->
  let '(y, _, _) := civil_from_days days in - 10 ^ 6 < y < 10 ^ 6.
Proof.
  intros Hd. pose proof (civil_from_days_inv days) as Hinv.
  destruct (civil_from_days days) as [[y m] d]. destruct Hinv as [_ Hyb].
  pose proof (Z.div_mod (days + 719468) 146097 ltac:(lia)).
  pose proof (Z.mod_pos_bound (days + 719468) 146097 ltac:(lia)).
  cbn. lia.
Qed.

(** [new Date(YYYY-MM-DD)] is UTC midnight of that day. *)
Lemma parse_iso_date (days : Z) :
  - 100000000 <= days <= 100000000 ->
  parse_iso (iso_date_part (civil_from_days days)) = Some (days * msPerDay).
Proof.
  intros Hb.
  pose proof (civil_from_days_inv days) as Hinv.
  pose proof (civil_md_bounds days) as Hmd.
  pose proof (year_bound days Hb) as Hy.
  destruct (civil_from_days days) as [[y m] d].
  destruct Hinv as [Hinv _]. destruct Hmd as [Hm Hd].
  unfold iso_date_part, parse_iso.
  rewrite parse_year_ok by exact Hy. cbn [obind fst snd String.append].
  rewrite expect_same. cbn [obind].
  rewrite take_digits_pad by (cbn; lia). cbn [obind fst snd String.append].
  rewrite expect_same. cbn [obind].
  rewrite <- (sapp_nil_r (digits_pad 2 d)).
  rewrite take_digits_pad by (cbn; lia). cbn [obind fst snd].
  replace ((1 <=? m) && (m <=? 12) && (1 <=? d) && (d <=? 31)) with true
    by (symmetry; rewrite !andb_true_iff, !Z.leb_le; lia).
  cbn [negb]. rewrite Hinv. reflexivity.
Qed.

(** Extra: [migrateFromSingleFile] writes each group to the day file that
    [saveSession] uses for every session of the group: [new Date(dateKey)]
    of the group key falls on the UTC start day of each of its sessions. *)
Theorem group_file_is_day_file (base : string) (l : list TimeSession)
  (m : list (string * list TimeSession)) (k : string) (g : list TimeSession) (s : TimeSession) :
  group_by_day l [] = Ok m -> In (k, g) m -> In s g -> date_ok (startTime s) = true ->
  getFilePathForDay base (new_Date (Some k)) = getFilePathForDay base (startTime s).
Proof.
  intros Hm Hin Hs Hok.
  destruct (group_by_day_inv l [] m Hm) as [H1 [H2 _]].
  assert (Hd : NoDup (map fst m)) by (apply H2; constructor).
  rewrite <- (group_of_in k g m Hd Hin), H1 in Hs. cbn [group_of app] in Hs.
  apply filter_In in Hs as [_ Hsd]. unfold same_day in Hsd.
  destruct (startTime s) as [t|]; [|discriminate].
  rewrite formatDateToString_DateOf in Hsd. apply String.eqb_eq in Hsd. subst k.
  cbn [date_ok] in Hok. apply Z.leb_le in Hok.
  pose proof (Z.div_mod t msPerDay ltac:(unfold msPerDay; lia)).
  pose proof (Z.mod_pos_bound t msPerDay ltac:(unfold msPerDay; lia)).
  assert (Hb : - 100000000 <= t / msPerDay <= 100000000) by (unfold msPerDay in *; lia).
  unfold new_Date, utc_date. rewrite parse_iso_date by exact Hb.
  unfold time_clip. replace (Z.abs _ <=? 8640000000000000) with true
    by (symmetry; apply Z.leb_le; unfold msPerDay in *; lia).
  rewrite !getFilePathForDay_DateOf. unfold utc_date.
  rewrite Z.div_mul by (unfold msPerDay; lia). reflexivity.
Qed.

Lemma group_by_day_groups_witness :
  NoDup (map fst (Sample.groups [Sample.demo; Sample.next_day; Sample.new_session])) /\
  forall k g, In (k, g) (Sample.groups [Sample.demo; Sample.next_day; Sample.new_session]) ->
    g = filter (same_day k) [Sample.demo; Sample.next_day; Sample.new_session] /\ g <> [].
Proof. apply group_by_day_groups. vm_compute. reflexivity. Defined.

Lemma group_file_is_day_file_witness :
  getFilePathForDay Sample.base (new_Date (Some "2025-05-07"))
  = getFilePathForDay Sample.base (startTime Sample.next_day).
Proof.
  apply (group_file_is_day_file Sample.base [Sample.demo; Sample.next_day]
           (Sample.groups [Sample.demo; Sample.next_day]) "2025-05-07" [Sample.next_day]).
  - vm_compute. reflexivity.
  - vm_compute. right. left. reflexivity.
  - left. reflexivity.
  - vm_compute. reflexivity.
Defined.

(* ------------------------------------------------------------------ *)
(** ** Statistics *)

Lemma map_get_set {V} (k k' : string) (v : V) (m : list (string * V)) :
  map_get k' (map_set k v m) = if String.eqb k' k then Some v else map_get k' m.
Proof.
  induction m as [|[k0 v0] r IH]; cbn [map_set map_get].
  - reflexivity.
  - destruct (String.eqb k k0) eqn:E; cbn [map_get].
    + apply String.eqb_eq in E. subst k0. destruct (String.eqb k' k); reflexivity.
    + destruct (String.eqb k' k0) eqn:E'; [|exact IH].
      apply String.eqb_eq in E'. subst k0. rewrite String.eqb_sym, E. reflexivity.
Qed.

Lemma keys_set {V} (k : string) (v : V) (m : list (string * V)) :
  forall x, In x (map fst (map_set k v m)) <-> In x (map fst m) \/ x = k.
Proof.
  induction m as [|[k0 v0] r IH]; intros x; cbn [map_set map fst].
  - cbn. intuition.
  - destruct (String.eqb k k0) eqn:E0; cbn [map fst In].
    + apply String.eqb_eq in E0. subst k0. intuition.
    + rewrite IH. intuition.
Qed.

Lemma nodup_set {V} (k : string) (v : V) (m : list (string * V)) :
  NoDup (map fst m) -> NoDup (map fst (map_set k v m)).
Proof.
  induction m as [|[k0 v0] r IH]; intros H; cbn [map_set map fst].
  - repeat constructor. intros [].
  - inversion H as [|x l Hn Hd]; subst.
    destruct (String.eqb k k0) eqn:E0; cbn [map fst]; [exact H|].
    constructor; [|exact (IH Hd)].
    rewrite keys_set. intros [Hin | ->]; [exact (Hn Hin)|].
    rewrite String.eqb_refl in E0. discriminate.
Qed.

Lemma stats_get (k : string) (l : list TimeSession) (m : list (string * Num)) :
  map_get k (fold_left add_category l m) = fold_left (cat_step k) l (map_get k m).
Proof.
  revert m. induction l as [|s l IH]; intros m; [reflexivity|].
  cbn [fold_left]. rewrite IH. f_equal. unfold add_category, cat_step.
  rewrite map_get_set.
  destruct (String.eqb k (category_key s)) eqn:E; [|reflexivity].
  apply String.eqb_eq in E. now rewrite E.
Qed.

Lemma stats_keys (l : list TimeSession) (m : list (string * Num)) :
  (NoDup (map fst m) -> NoDup (map fst (fold_left add_category l m))) /\
  forall x, In x (map fst (fold_left add_category l m))
            <-> In x (map fst m) \/ exists s, In s l /\ category_key s = x.
Proof.
  revert m. induction l as [|s l IH]; intros m; cbn [fold_left].
  - split; [auto|]. intros x. split; [now left|]. intros [H|[s [[] _]]]. exact H.
  - destruct (IH (add_category m s)) as [H1 H2]. split.
    + intros Hd. apply H1. apply nodup_set, Hd.
    + intros x. rewrite H2. unfold add_category. rewrite keys_set. split.
      * intros [[Hx| ->]|[s' [Hs' Hk]]]; [now left | right | right].
        -- exists s. split; [now left | reflexivity].
        -- exists s'. split; [now right | exact Hk].
      * intros [Hx|[s' [[<-|Hs'] Hk]]]; [now left; left | now left; right; symmetry |].
        right. exists s'. split; assumption.
Qed.

(** Extra: [getCategoryStats] lists each category once, the categories
    being those of the sessions, with an absent or empty category counted
    as [Uncategorized]. *)
Theorem category_stats_keys (l : list TimeSession) :
  NoDup (map fst (category_stats l)) /\
  forall c, In c (map fst (category_stats l)) <-> exists s, In s l /\ category_key s = c.
Proof.
  unfold category_stats. destruct (stats_keys l []) as [H1 H2]. split.
  - apply H1. constructor.
  - intros c. rewrite H2. split; [intros [[]|H]; exact H | intros H; now right].
Qed.

Lemma cat_fold_numbers (k : string) (l : list TimeSession) (acc : Num) :
  (forall s, In s l -> exists z, duration s = NumZ z) ->
  (exists z, acc = NumZ z) ->
  fold_left (cat_step k) l (Some acc)
  = Some (num_add acc (num_sum (map duration (filter (fun s => String.eqb k (category_key s)) l)))).
Proof.
  revert acc. induction l as [|s l IH]; intros acc Hl [z ->].
  - cbn. f_equal. f_equal. lia.
  - cbn [fold_left filter]. unfold cat_step at 2.
    destruct (Hl s (or_introl eq_refl)) as [d Hd].
    destruct (String.eqb k (category_key s)).
    + cbn [or_zero map num_sum fold_right]. rewrite Hd.
      rewrite IH by (eauto using in_cons || (eexists; reflexivity)).
      fold (num_sum (map duration (filter (fun s => String.eqb k (category_key s)) l))).
      destruct (num_sum _) as [x|]; cbn; [f_equal; f_equal; lia | reflexivity].
    + apply IH; [eauto using in_cons | eauto].
Qed.

Lemma cat_fold_absent (k : string) (l : list TimeSession) (acc : option Num) :
  (forall s, In s l -> String.eqb k (category_key s) = false) ->
  fold_left (cat_step k) l acc = acc.
Proof.
  revert acc. induction l as [|s l IH]; intros acc H; [reflexivity|].
  cbn [fold_left]. unfold cat_step at 2. rewrite H by now left.
  apply IH. intros s' Hs'. apply H. now right.
Qed.

(** Extra: when every session has a non-negative integer duration and
    all of them together sum to at most 2^53, [getCategoryStats] gives
    each category the sum of the durations of its sessions.  Under these
    bounds every running total is an integer of at most 2^53, which the
    double additions of the code compute exactly. *)
Theorem category_stats_sums (l : list TimeSession) (c : string) (n : Z) :
  (forall s, In s l -> exists z, duration s = NumZ z /\ 0 <= z) ->
  num_sum (map duration l) = NumZ n -> n <= 2 ^ 53 ->
  (exists s, In s l /\ category_key s = c) ->
  map_get c (category_stats l)
  = Some (num_sum (map duration (filter (fun s => String.eqb c (category_key s)) l))).
Proof.
  intros Hnat _ _ [s0 [Hs0 Hk0]].
  assert (Hnum : forall s, In s l -> exists z, duration s = NumZ z)
    by (intros s Hs; destruct (Hnat s Hs) as [z [Hz _]]; now exists z).
  clear Hnat. unfold category_stats. rewrite stats_get. cbn [map_get].
  induction l as [|s l IH]; [destruct Hs0|].
  cbn [fold_left filter]. unfold cat_step at 2.
  destruct (String.eqb c (category_key s)) eqn:E.
  - cbn [or_zero]. destruct (Hnum s (or_introl eq_refl)) as [d Hd].
    rewrite cat_fold_numbers; [| eauto using in_cons | exists (0 + d); now rewrite Hd].
    cbn [map num_sum fold_right]. rewrite Hd.
    fold (num_sum (map duration (filter (fun s => String.eqb c (category_key s)) l))).
    destruct (num_sum _) as [x|]; cbn; [f_equal; f_equal; lia | reflexivity].
  - destruct Hs0 as [<-|Hs0].
    + subst c. rewrite String.eqb_refl in E. discriminate.
    + apply IH; [exact Hs0 | eauto using in_cons].
Qed.

Lemma cat_fold_nan (k : string) (l : list TimeSession) :
  fold_left (cat_step k) l (Some NaN)
  = if existsb (fun s => String.eqb k (category_key s)) l
    then fold_left (cat_step k) l None else Some NaN.
Proof.
  induction l as [|s l IH]; [reflexivity|].
  cbn [fold_left existsb]. unfold cat_step at 2 4.
  destruct (String.eqb k (category_key s)); [reflexivity | exact IH].
Qed.

(** Extra: in [getCategoryStats] a session with a [NaN] duration wipes
    out its category: the running total becomes [NaN], and the next
    session of that category restarts it from zero ([NaN || 0] is [0]),
    so the category ends with exactly the total that the sessions after
    the [NaN] one would give alone, or with [NaN] if there is none. *)
Theorem category_stats_nan_reset (l1 l2 : list TimeSession) (s : TimeSession) :
  duration s = NaN ->
  map_get (category_key s) (category_stats (l1 ++ s :: l2))
  = if existsb (fun s' => String.eqb (category_key s) (category_key s')) l2
    then map_get (category_key s) (category_stats l2) else Some NaN.
Proof.
  intros Hn. unfold category_stats. rewrite !stats_get. cbn [map_get].
  rewrite fold_left_app. cbn [fold_left]. unfold cat_step at 2.
  rewrite String.eqb_refl, Hn.
  replace (num_add _ NaN) with NaN by (destruct (or_zero _); reflexivity).
  apply cat_fold_nan.
Qed.

Lemma total_fold_nan (l : list TimeSession) (acc : Num) :
  fold_left (fun total session => num_add total (duration session)) l acc = NaN
  <-> acc = NaN \/ exists s, In s l /\ duration s = NaN.
Proof.
  revert acc. induction l as [|s l IH]; intros acc; cbn [fold_left].
  - split; [now left | intros [H|[s [[] _]]]; exact H].
  - rewrite IH. split.
    + intros [H|[s' [Hs' Hd]]].
      * destruct acc as [a|]; [|now left]. destruct (duration s) as [d|] eqn:Ed;
          [discriminate|]. right. exists s. split; [now left | exact Ed].
      * right. exists s'. split; [now right | exact Hd].
    + intros [->|[s' [[<-|Hs'] Hd]]].
      * now left.
      * left. rewrite Hd. now destruct acc.
      * right. exists s'. split; assumption.
Qed.

(** Extra: [getProjectTotalTime] is [NaN] as soon as one session of the
    project has a [NaN] duration: its sum has no [|| 0], so a [NaN] is
    never dropped, unlike in [getCategoryStats]. *)
Theorem project_total_nan_absorbs (p : string) (l : list TimeSession) :
  (exists s, In s l /\ project s = p /\ duration s = NaN) -> project_total p l = NaN.
Proof.
  intros [s [Hs [Hp Hd]]]. unfold project_total. apply total_fold_nan.
  right. exists s. split; [|exact Hd].
  apply filter_In. split; [exact Hs|]. now apply String.eqb_eq.
Qed.

Lemma category_stats_sums_witness :
  map_get "Uncategorized" (category_stats [Sample.demo; Sample.next_day; Sample.new_session])
  = Some (num_sum (map duration (filter (fun s => String.eqb "Uncategorized" (category_key s))
                                  [Sample.demo; Sample.next_day; Sample.new_session]))).
Proof.
  apply (category_stats_sums _ _ 3600000).
  - intros s [<-|[<-|[<-|[]]]]; (eexists; split; [reflexivity | lia]).
  - vm_compute. reflexivity.
  - lia.
  - exists Sample.demo. split; [left; reflexivity | reflexivity].
Defined.

Lemma project_total_nan_absorbs_witness :
  project_total (project Sample.nan_session) [Sample.demo; Sample.nan_session] = NaN.
Proof.
  apply project_total_nan_absorbs. exists Sample.nan_session.
  split; [right; left; reflexivity | split; reflexivity].
Defined.

Lemma category_stats_nan_reset_witness :
  map_get (category_key Sample.nan_session)
    (category_stats ([Sample.demo] ++ Sample.nan_session :: [Sample.new_session]))
  = if existsb (fun s' => String.eqb (category_key Sample.nan_session) (category_key s'))
         [Sample.new_session]
    then map_get (category_key Sample.nan_session) (category_stats [Sample.new_session])
    else Some NaN.
Proof. apply category_stats_nan_reset. reflexivity. Defined.
(* ------------------------------------------------------------------ *)
(** ** More on the tracking state machine *)

Module TrackerMore.
Import Tracker.

Lemma ecs_saved (c : Z) (st : Tracker) :
  saved (endCurrentSession c st)
  = (saved st ++ match currentSession st with
                 | Some cur => if dbService st then [with_end cur c] else []
                 | None => []
                 end)%list.
Proof.
  unfold endCurrentSession.
  destruct (currentSession st); [destruct (dbService st)|]; cbn; now rewrite ?app_nil_r.
Qed.

Lemma ecs_recorded (c : Z) (st : Tracker) :
  current_ok st ->
  current_ok (endCurrentSession c st) /\
  forall s, In s (saved (endCurrentSession c st)) -> In s (saved st) \/ recorded_ok s.
Proof.
  intros H. split; [intros cur; now rewrite TrackerFacts.ecs_current|].
  intros s Hs. rewrite ecs_saved in Hs.
  destruct (currentSession st) as [cur|] eqn:Ec.
  - destruct (dbService st).
    + apply TrackerFacts.in_app_one in Hs as [Hs| ->]; [now left|].
      right. destruct (H cur Ec) as [t [i [Ht Hi]]].
      exists t, c, i. cbn. rewrite Ht. cbn. repeat split. exact Hi.
    + rewrite app_nil_r in Hs. now left.
  - rewrite app_nil_r in Hs. now left.
Qed.

Lemma start_recorded (e : option Editor) (c i t : Z) (st : Tracker) :
  current_ok st ->
  current_ok (startTracking e c i t st) /\
  forall s, In s (saved (startTracking e c i t st)) -> In s (saved st) \/ recorded_ok s.
Proof.
  intros H. destruct e as [e|]; cbn [startTracking].
  - destruct (ecs_recorded c st H) as [_ H2]. split; [|exact H2].
    intros cur Hc. cbn in Hc. injection Hc as <-. exists t, i. split; reflexivity.
  - split; [exact H | intros s Hs; now left].
Qed.

Lemma map_current_recorded (f : TimeSession -> TimeSession) (st : Tracker) :
  (forall s, startTime (f s) = startTime s /\ id (f s) = id s) ->
  current_ok st -> current_ok (map_current f st).
Proof.
  intros Hf H cur Hc. unfold map_current in Hc. cbn in Hc.
  destruct (currentSession st) as [c0|] eqn:E; [|discriminate].
  injection Hc as <-. destruct (H c0 E) as [t [i [Ht Hi]]].
  destruct (Hf c0) as [H1 H2]. exists t, i. rewrite H1, H2. auto.
Qed.

Lemma step_recorded (ev : Event) (st : Tracker) :
  current_ok st ->
  current_ok (step ev st) /\
  forall s, In s (saved (step ev st)) -> In s (saved st) \/ recorded_ok s.
Proof.
  intros H. destruct ev as [e c i t|c|[e|] c i t|c|c|n]; cbn [step].
  - apply start_recorded, H.
  - apply ecs_recorded, H.
  - unfold handleEditorChange. destruct (isTracking st && _).
    + destruct (ecs_recorded c st H) as [H1 H2].
      destruct (start_recorded (Some e) c i t _ H1) as [H3 H4]. split; [exact H3|].
      intros s Hs. destruct (H4 s Hs) as [Hs'|]; [exact (H2 s Hs') | now right].
    + split; [exact H | now left].
  - split; [exact H | now left].
  - split; [|intros s Hs; now left].
    apply map_current_recorded; [intros s; split; reflexivity | exact H].
  - split; [|intros s Hs; now left].
    apply map_current_recorded; [intros s; split; reflexivity | exact H].
  - split; [|intros s Hs; now left].
    apply map_current_recorded; [intros s; split; reflexivity | exact H].
Qed.

(** Extra: every session the tracker hands to [saveSession] over a run
    has its [endTime] set, a [duration] equal to [endTime - startTime]
    (whatever the display timer wrote before), and the decimal text of a
    clock value as [id], provided the session open at the start of the
    run has a valid start and such an [id] (one opened by [startTracking]
    does). *)
Theorem tracker_saved_sessions (st : Tracker) (tr : list Event) :
  current_ok st ->
  forall s, In s (saved (run st tr)) -> In s (saved st) \/ recorded_ok s.
Proof.
  revert st. induction tr as [|ev tr IH]; intros st H s Hs; [now left|].
  cbn [run] in Hs. destruct (step_recorded ev st H) as [H1 H2].
  destruct (IH _ H1 s Hs) as [Hs'|Hr]; [exact (H2 s Hs') | now right].
Qed.

(** Extra: [handleEditorChange] to another file while tracking closes
    exactly one session, the open one, at the reading of its own
    [endCurrentSession] (the one inside [startTracking] finds nothing
    open), pushes it to the in-memory list, hands it to [saveSession] when
    [dbService] exists and otherwise shows an error, and opens a fresh
    session of the new file with the id and start of the later readings.
    When not tracking, or on the same file, it changes nothing. *)
Theorem handleEditorChange_switch (st : Tracker) (e : Editor) (c i t : Z) :
  (forall cur, currentSession st = Some cur -> lastActiveFile st <> Some (ed_path e) ->
   let st' := handleEditorChange (Some e) c i t st in
   t_sessions st' = (t_sessions st ++ [with_end cur c])%list /\
   saved st' = (saved st ++ if dbService st then [with_end cur c] else [])%list /\
   t_ui st' = (t_ui st ++ if dbService st then []
                          else [ErrorMsg "Failed to save time tracking session"])%list /\
   lastActiveFile st' = Some (ed_path e) /\
   exists fresh, currentSession st' = Some fresh /\ filePath fresh = ed_path e /\
                 id fresh = num_to_string (NumZ i) /\ startTime fresh = DateOf t /\
                 endTime fresh = None /\ duration fresh = NumZ 0) /\
  (currentSession st = None \/ lastActiveFile st = Some (ed_path e) ->
   handleEditorChange (Some e) c i t st = st).
Proof.
  split.
  - intros cur Hc Hl. unfold handleEditorChange, isTracking. rewrite Hc.
    replace (match lastActiveFile st with
             | Some f => negb (String.eqb f (ed_path e))
             | None => true end) with true.
    2:{ destruct (lastActiveFile st) as [f|]; [|reflexivity].
        destruct (String.eqb f (ed_path e)) eqn:E; [|reflexivity].
        apply String.eqb_eq in E. subst f. contradiction. }
    cbn [andb startTracking]. unfold endCurrentSession. rewrite Hc.
    destruct (dbService st); cbn;
      (split; [reflexivity|]); (split; [now rewrite ?app_nil_r|]);
      (split; [now rewrite ?app_nil_r|]);
      (split; [reflexivity|]); eexists; repeat split.
  - intros [Hn|Hl]; unfold handleEditorChange, isTracking.
    + now rewrite Hn.
    + rewrite Hl, String.eqb_refl. now destruct (currentSession st).
Qed.

Lemma tracker_saved_sessions_witness :
  Forall (fun s => In s (saved empty) \/ recorded_ok s)
    (saved (run empty [StartTracking (Some demo_editor) 1000 1000 1001; Tick 2000;
                       HandleEditorChange (Some other_editor) 3000 3001 3002;
                       StopTracking 5000])).
Proof. apply Forall_forall. apply tracker_saved_sessions. intros cur H. simpl in H. discriminate H. Defined.

Lemma handleEditorChange_switch_witness :
  saved (handleEditorChange (Some other_editor) 3000 3001 3002
           (run empty [StartTracking (Some demo_editor) 1000 1000 1001]))
  = (saved (run empty [StartTracking (Some demo_editor) 1000 1000 1001])
     ++ if dbService (run empty [StartTracking (Some demo_editor) 1000 1000 1001])
        then [with_end (mkTimeSession "1000" "main.ts" "/work/demo/main.ts" "demo"
                          (DateOf 1001) None (NumZ 0) None None) 3000]
        else [])%list.
Proof.
  apply (proj1 (handleEditorChange_switch
                  (run empty [StartTracking (Some demo_editor) 1000 1000 1001])
                  other_editor 3000 3001 3002)).
  - vm_compute. reflexivity.
  - vm_compute. discriminate.
Defined.

End TrackerMore.


Module SegMore.
Import Tracker.

Lemma last_segment_gen (s cur : string) :
  includes "/" cur = false -> includes "092" cur = false ->
  includes "/" (last_segment s cur) = false /\ includes "092" (last_segment s cur) = false /\
  exists p, cur ++ s = p ++ last_segment s cur /\
            (p = EmptyString \/ exists p' c, p = p' ++ str1 c /\ (c = "/"%char \/ c = "092"%char)).
Proof.
  revert cur. induction s as [|c s IH]; intros cur H1 H2; cbn [last_segment].
  - split; [exact H1|]. split; [exact H2|]. exists EmptyString. split; [|now left].
    cbn. apply sapp_nil_r.
  - destruct (Ascii.eqb c "/" || Ascii.eqb c "092") eqn:Ec.
    + destruct (IH EmptyString eq_refl eq_refl) as [R1 [R2 [p1 [Hp1 Hs]]]].
      split; [exact R1|]. split; [exact R2|].
      exists (cur ++ str1 c ++ p1). split.
      * cbn in Hp1. rewrite sapp_assoc. cbn. rewrite <- Hp1. reflexivity.
      * right. assert (Hc : c = "/"%char \/ c = "092"%char).
        { apply orb_true_iff in Ec as [E|E]; apply Ascii.eqb_eq in E; auto. }
        destruct Hs as [-> | [p' [c' [-> Hc']]]].
        -- exists cur, c. split; [|exact Hc]. reflexivity.
        -- exists (cur ++ str1 c ++ p'), c'. split; [|exact Hc'].
           rewrite !sapp_assoc. reflexivity.
    + assert (N1 : includes "/" (cur ++ str1 c) = false).
      { rewrite includes_app, H1. unfold str1; cbn [includes]. apply orb_false_iff in Ec as [E _].
        rewrite Ascii.eqb_sym, E. reflexivity. }
      assert (N2 : includes "092" (cur ++ str1 c) = false).
      { rewrite includes_app, H2. unfold str1; cbn [includes]. apply orb_false_iff in Ec as [_ E].
        rewrite Ascii.eqb_sym, E. reflexivity. }
      destruct (IH _ N1 N2) as [R1 [R2 [p [Hp Hs]]]].
      split; [exact R1|]. split; [exact R2|]. exists p. split; [|exact Hs].
      rewrite <- Hp, sapp_assoc. reflexivity.
Qed.

End SegMore.

(** Extra: the [fileName] that [startTracking] derives from a path has
    no [/] and no backslash, and the path is some prefix followed by it,
    where the prefix is empty or ends in a separator: it is the last path
    component, empty when the path ends in a separator. *)
Theorem last_segment_file_name (fp : string) :
  let r := Tracker.last_segment fp EmptyString in
  includes "/" r = false /\ includes "092" r = false /\
  exists p, fp = p ++ r /\
            (p = EmptyString \/ exists p' c, p = p' ++ str1 c /\ (c = "/"%char \/ c = "092"%char)).
Proof. exact (SegMore.last_segment_gen fp EmptyString eq_refl eq_refl). Qed.


Module IdleNotifyFacts.
Import IdleNotify.

Lemma closes_app (a b : list Signal) : closes (a ++ b) = (closes a + closes b)%nat.
Proof. unfold closes. now rewrite filter_app, length_app. Qed.

Lemma step_closes (ev : Event) (d : Detector) :
  (closes (snd (step ev d)) + held (fst (step ev d)) <=
   held d + match ev with SetActiveNotification _ => 1 | _ => 0 end)%nat.
Proof.
  destruct ev as [c|c|v|v|n|]; cbn [step fst snd].
  - unfold recordActivity, held.
    destruct (idleDetected d), (activeNotification d), (autoDismissEnabled d),
      (hasOnUserReturned d); cbn; lia.
  - unfold checkIdleState. destruct (_ && _); cbn; unfold held; cbn; lia.
  - destruct v; cbn; unfold held; cbn; lia.
  - destruct v; cbn; unfold held; cbn; lia.
  - unfold held. cbn. destruct (activeNotification d); lia.
  - unfold held. cbn. lia.
Qed.
End IdleNotifyFacts.

Module IdleNotifyMore.
Import IdleNotify IdleNotifyFacts.

Lemma run_closes (d : Detector) (tr : list Event) :
  (closes (snd (run d tr)) + held (fst (run d tr)) <= held d + sets tr)%nat.
Proof.
  revert d. induction tr as [|ev r IH]; intros d; [cbn; lia|].
  cbn [run]. pose proof (step_closes ev d) as Hs.
  destruct (step ev d) as [d1 o1]. cbn [fst snd] in Hs.
  specialize (IH d1). destruct (run d1 r) as [d2 o2]. cbn [fst snd] in *.
  rewrite closes_app. unfold sets. cbn [filter].
  destruct ev; cbn [length] in *; fold (sets r); lia.
Qed.

(** Extra: the second [IdleDetector] issues [closeNotification] at most
    once per notification it was given: over any sequence of calls the
    number of [closeNotification] commands is at most the number of
    [setActiveNotification] calls, plus one if a notification was already
    held at the start ([recordActivity] clears the reference when it
    closes it). *)
Theorem idle_closes_per_notification (d : Detector) (tr : list Event) :
  (closes (snd (run d tr)) <= held d + sets tr)%nat.
Proof. pose proof (run_closes d tr). lia. Qed.

Lemma step_keeps_off (ev : Event) (d : Detector) :
  autoDismissEnabled d = false -> keeps_off [ev] = true ->
  autoDismissEnabled (fst (step ev d)) = false /\ closes (snd (step ev d)) = O.
Proof.
  intros Ha Hk. destruct ev as [c|c|v|v|n|]; cbn [step fst snd].
  - unfold recordActivity. rewrite Ha.
    destruct (idleDetected d), (activeNotification d), (hasOnUserReturned d); cbn;
      split; first [exact Ha | reflexivity].
  - unfold checkIdleState. destruct (_ && _); cbn; split; first [exact Ha | reflexivity].
  - destruct v; cbn; split; first [exact Ha | reflexivity].
  - destruct v as [[|]|]; cbn in *; try discriminate; split; first [exact Ha | reflexivity].
  - cbn. split; first [exact Ha | reflexivity].
  - cbn. split; first [exact Ha | reflexivity].
Qed.

(** Extra: with [autoDismissIdleNotification] off, the second
    [IdleDetector] never issues [closeNotification], whatever the
    activity, checks and notifications, as long as no configuration
    change turns the setting on. *)
Theorem idle_no_close_when_off (d : Detector) (tr : list Event) :
  autoDismissEnabled d = false -> keeps_off tr = true ->
  closes (snd (run d tr)) = O.
Proof.
  revert d. induction tr as [|ev r IH]; intros d Ha Hk; [reflexivity|].
  cbn [run]. unfold keeps_off in Hk. cbn [forallb] in Hk.
  apply andb_true_iff in Hk as [Hk1 Hk2].
  destruct (step_keeps_off ev d Ha) as [Ha1 Hc1].
  { unfold keeps_off. cbn [forallb]. now rewrite Hk1. }
  destruct (step ev d) as [d1 o1]. cbn [fst snd] in *.
  specialize (IH d1 Ha1 Hk2). destruct (run d1 r) as [d2 o2]. cbn [snd] in *.
  now rewrite closes_app, Hc1, IH.
Qed.

Lemma idle_no_close_when_off_witness :
  closes (snd (run (mkDetector 0 300000 false None false true)
                 [CheckIdleState 400000; SetActiveNotification "Idle"; RecordActivity 500000]))
  = O.
Proof. apply idle_no_close_when_off; reflexivity. Defined.

End IdleNotifyMore.


Lemma parse_header_only : parse_content (CSV_HEADER ++ str1 nl) = Ok [].
Proof. vm_compute. reflexivity. Qed.

(** Extra: [ensureFileExists] on a missing path creates a file holding
    only the header line, with no message, and that file loads as the
    empty list. *)
Theorem ensureFileExists_then_load (p : string) (w : World) :
  files w p = None -> fails w (OpWrite p) = false -> fails w (OpRead p) = false ->
  exists w', ensureFileExists p w = (Ok tt, w') /\
             files w' p = Some (CSV_HEADER ++ str1 nl) /\ ui w' = ui w /\
             loadSessionsFromFile p w' = (Ok [], w').
Proof.
  intros Hn Hw Hr.
  eexists. split.
  { unfold ensureFileExists, bind, existsSync, catch, writeFileSync.
    rewrite Hn, Hw. reflexivity. }
  cbn -[CSV_HEADER parse_content]. unfold upd. rewrite String.eqb_refl. split; [reflexivity|]. split; [reflexivity|].
  unfold loadSessionsFromFile, bind, existsSync, catch, readFileSync, lift, ret. cbn -[CSV_HEADER parse_content].
  unfold upd. rewrite String.eqb_refl. cbn -[CSV_HEADER parse_content]. rewrite Hr, parse_header_only. reflexivity.
Qed.

(** Extra: when the day file of a session is missing and cannot be
    created, [saveSession] shows the creation error and then its own,
    returns normally, and changes nothing else: no file, no file event,
    no in-memory list. *)
Theorem saveSession_create_fails (s : TimeSession) (w : World) (p : string) :
  getFilePathForDay (baseDirectory w) (startTime s) = Ok p ->
  files w p = None -> fails w (OpWrite p) = true ->
  saveSession s w = (Ok tt, push_ui (push_ui w (ErrorMsg "Failed to create CSV file"))
                                    (ErrorMsg "Failed to save session")).
Proof.
  intros Hp Hn Hw.
  unfold saveSession, catch, bind, getFilePathForDay_m. rewrite Hp.
  unfold ensureFileExists, bind, existsSync, catch, writeFileSync. rewrite Hn, Hw.
  reflexivity.
Qed.

Lemma saveSession_create_fails_witness :
  saveSession Sample.demo
    (mkWorld (fun _ => None) (fun op => match op with OpWrite _ => true | _ => false end)
       Sample.t_start Sample.base [] [] [])
  = (Ok tt, push_ui (push_ui (mkWorld (fun _ => None)
                                (fun op => match op with OpWrite _ => true | _ => false end)
                                Sample.t_start Sample.base [] [] [])
                       (ErrorMsg "Failed to create CSV file"))
              (ErrorMsg "Failed to save session")).
Proof. apply saveSession_create_fails with (p := Sample.partition); vm_compute; reflexivity. Defined.

Lemma ensureFileExists_then_load_witness :
  exists w', ensureFileExists Sample.partition (Sample.world (fun _ => None) Sample.t_start) = (Ok tt, w') /\
             files w' Sample.partition = Some (CSV_HEADER ++ str1 nl) /\
             ui w' = ui (Sample.world (fun _ => None) Sample.t_start) /\
             loadSessionsFromFile Sample.partition w' = (Ok [], w').
Proof. apply ensureFileExists_then_load; reflexivity. Defined.


Lemma in_replace_nth {A} (l : list A) (k : nat) (x y : A) :
  In y (replace_nth l k x) -> In y l \/ y = x.
Proof.
  revert k. induction l as [|a l IH]; intros [|k]; cbn; try tauto.
  - intros [H|H]; [now right | now left; right].
  - intros [H|H]; [now left; left | destruct (IH k H); tauto].
Qed.

Lemma upsert_row_ok (l : list TimeSession) (s : TimeSession) :
  forallb row_ok l = true -> row_ok s = true -> forallb row_ok (upsert l s) = true.
Proof.
  intros Hl Hs. rewrite forallb_forall in *. intros x Hx. unfold upsert in Hx.
  destruct (findIndex (id s) l).
  - destruct (in_replace_nth _ _ _ _ Hx) as [H| ->]; [now apply Hl | exact Hs].
  - apply in_app_or in Hx as [H|[<-|[]]]; [now apply Hl | exact Hs].
Qed.

(** Extra: [saveSession] over an existing day file whose records are
    well formed, as is the session ([row_ok]), succeeds, and loading that day
    file afterwards gives the loaded records with the session put in by
    [upsert]: in place of the first record with its id, or at the end. *)
Theorem saveSession_then_load (s : TimeSession) (w : World) (t : Z)
  (p c : string) (l : list TimeSession) :
  startTime s = DateOf t ->
  getFilePathForDay (baseDirectory w) (DateOf t) = Ok p ->
  files w p = Some c -> parse_content c = Ok l ->
  forallb row_ok l = true -> row_ok s = true ->
  fails w (OpRead p) = false ->
  fails w (OpCopy p (p ++ ".backup")) = false ->
  fails w (OpWrite p) = false ->
  fails w (OpUnlink (p ++ ".backup")) = false ->
  exists w1, saveSession s w = (Ok tt, w1) /\
             loadSessionsFromFile p w1 = (Ok (upsert l s), w1).
Proof.
  intros Hst Hp Hc Hl Hok Hs Hrd Hcp Hw Hu.
  destruct (render_content_roundtrip (upsert l s) (upsert_row_ok l s Hok Hs))
    as [out [Hr Hpc]].
  set (w0 := if String.eqb (iso_date_part (utc_date t)) (iso_date_part (utc_date (now w)))
             then set_sessions w (upsert l s) else w).
  assert (Hf : files w0 = files w /\ fails w0 = fails w)
    by (unfold w0; destruct (String.eqb _ _); split; reflexivity).
  destruct Hf as [Hf0 Hfl0].
  pose proof (saveSessionsToFile_ok (upsert l s) p c out w0) as E.
  rewrite Hf0, Hfl0 in E. specialize (E Hc Hcp Hw Hu Hr).
  eexists. split.
  - apply (saveSession_existing s w _ t p c l Hst Hp Hc Hrd Hl). exact E.
  - rewrite load_readable with (c := out).
    + rewrite Hpc. reflexivity.
    + cbn [files]. rewrite upd_other by (rewrite String.eqb_sym; apply eqb_backup).
      apply upd_same.
    + cbn [fails]. unfold w0. destruct (String.eqb _ _); exact Hrd.
Qed.

Lemma saveSession_then_load_witness :
  exists w1, saveSession Sample.new_session (Sample.world_with Sample.day_file Sample.t_end)
             = (Ok tt, w1) /\
             loadSessionsFromFile Sample.partition w1
             = (Ok (upsert [Sample.demo] Sample.new_session), w1).
Proof.
  apply (saveSession_then_load Sample.new_session _ Sample.t_start Sample.partition
           Sample.day_file [Sample.demo]); vm_compute; reflexivity.
Defined.
